(** * The EPM registry client of the ingest manager plugin

    A shallow embedding of
    [x-pack/plugins/ingest_manager/server/services/epm/registry/index.ts]:
    the path parser [pathParts], the cache-first archive lookup
    [getOrFetchArchiveBuffer], [getArchiveInfo], [getAsset] and
    [groupPathsByService], together with the properties the specification
    states about them.

    JavaScript values that may be [undefined] are options ([None] is
    [undefined]); strings are [string] (splitting at a slash and replacing
    a substring act on the UTF-8 bytes as they do on the code units);
    byte buffers are lists of bytes; the module-level cache and the
    requests sent to the registry are threaded explicitly through a
    [World]. Calls are taken one after the other: an asynchronous function
    is a function from the world before the call to its outcome and the
    world after it. *)

From Stdlib Require Import Strings.Ascii Strings.Byte.
From stdpp Require Import base option list strings gmap.

(** ** JavaScript string and value primitives used by the module *)

Module Js.

(** [s.split(sep)] for a one-character separator: never empty, the empty
    string splits into one empty segment. *)
Fixpoint split (sep : ascii) (s : string) : list string :=
  match s with
  | EmptyString => [EmptyString]
  | String c r =>
      if Ascii.eqb c sep then EmptyString :: split sep r
      else match split sep r with
           | [] => [String c EmptyString]
           | h :: t => String c h :: t
           end
  end.

(** [s.slice(n)]. *)
Fixpoint drop (n : nat) (s : string) : string :=
  match n, s with
  | O, _ => s
  | S n', String _ r => drop n' r
  | S _, EmptyString => EmptyString
  end.

(** [s.startsWith(p)]. *)
Fixpoint startsWith (p s : string) : bool :=
  match p, s with
  | EmptyString, _ => true
  | String a p', String b s' => Ascii.eqb a b && startsWith p' s'
  | String _ _, EmptyString => false
  end.

(** [s.replace(pat, rep)] with a string pattern: only the first
    occurrence of [pat] is replaced. *)
Fixpoint replace (pat rep s : string) : string :=
  if startsWith pat s then rep +:+ drop (String.length pat) s
  else match s with
       | EmptyString => EmptyString
       | String c r => String c (replace pat rep r)
       end.

(** [s.replace(/^prefix/, '')] for a literal prefix. *)
Definition stripPrefix (p s : string) : string :=
  if startsWith p s then drop (String.length p) s else s.

(** String conversion of a possibly undefined string, as performed by a
    template literal or a computed property key. *)
Definition toString (v : option string) : string :=
  match v with
  | Some s => s
  | None => "undefined"
  end.

(** Truthiness of a possibly undefined string: [undefined] and the empty
    string are falsy. *)
Definition truthy (v : option string) : bool :=
  match v with
  | Some EmptyString | None => false
  | Some (String _ _) => true
  end.

(** [v === s] against a string literal. *)
Definition strictEq (v : option string) (s : string) : bool :=
  match v with
  | Some x => String.eqb x s
  | None => false
  end.

(** The property names every ordinary object inherits from
    [Object.prototype]; the [in] operator and property reads see them. *)
Definition objectPrototypeNames : list string :=
  [ "constructor"; "__defineGetter__"; "__defineSetter__"; "hasOwnProperty";
    "__lookupGetter__"; "__lookupSetter__"; "isPrototypeOf";
    "propertyIsEnumerable"; "toString"; "valueOf"; "__proto__";
    "toLocaleString" ].

Definition inherited (k : string) : bool :=
  bool_decide (k ∈ objectPrototypeNames).

(** Number of occurrences of a character. *)
Fixpoint count (c : ascii) (s : string) : nat :=
  match s with
  | EmptyString => 0
  | String a r => (if Ascii.eqb a c then 1 else 0) + count c r
  end.

End Js.

(** ** Data model *)

Definition Buffer := list byte.

(** [AssetParts] of [common/types]; every field read out of a
    destructured array may be [undefined]. *)
Module AssetParts.
Record t := mk {
  pkgkey : option string;
  service : option string;
  type : option string;
  file : option string;
  dataset : option string;
  path : string
}.
End AssetParts.

(** ** The path parser *)

(** [let [pkgkey, service, type, file] = segments]. *)
Definition destructure4 (segments : list string)
  : option string * option string * option string * option string :=
  (segments !! 0, segments !! 1, segments !! 2, segments !! 3).

Definition pathParts (path : string) : AssetParts.t :=
  let '(pkgkey, service, type, file) := destructure4 (Js.split "/"%char path) in
  let '(dataset, (pkgkey, service, type, file)) :=
    if Js.strictEq service "dataset" then
      (type,
       destructure4
         (Js.split "/"%char
            (Js.replace ("dataset/" +:+ Js.toString type +:+ "/") "" path)))
    else (None, (pkgkey, service, type, file)) in
  let '(service, type, file) :=
    match file with
    | None => (Some "", Some "fields", type)
    | Some _ => (service, type, file)
    end in
  AssetParts.mk pkgkey service type file dataset path.

(** ** Failures, requests and the world *)

(** What a rejected promise or a [throw] carries. *)
Inductive Failure :=
| Error (message : string)     (* [new Error(message)], thrown in index.ts *)
| Rejected (reason : string).  (* a rejection coming out of ./requests,
                                  ./streams or ./extract *)

(** One member of an extracted archive ([ArchiveEntry] of ./extract);
    [buffer] is absent for directory entries. *)
Module ArchiveEntry.
Record t := mk {
  path : string;
  buffer : option Buffer
}.
End ArchiveEntry.

(** The part of [RegistryPackage] the module reads. *)
Module RegistryPackage.
Record t := mk {
  name : string;
  version : string;
  download : option string
}.
End RegistryPackage.

(** The requests the module hands to ./requests. *)
Inductive Request :=
| GetUrl (url : string)              (* [fetchUrl(url)] *)
| GetResponseStream (url : string).  (* [getResponseStream(url)] *)

(** The collaborators that are not part of index.ts, as oracles. A
    transport answer may depend on the requests made before it, so that a
    registry that fails once and answers later is covered. *)
Record Env := {
  (* [configService.getConfig()?.epm.registryUrl] *)
  registryUrl : option string;
  (* [fetchUrl(url).then(JSON.parse)] *)
  fetchUrlJson : list Request -> string -> Failure + RegistryPackage.t;
  (* [getResponseStream(url).then(streamToBuffer)]; the resolved value is a
     buffer, [None] standing for a resolved value that is no buffer at all *)
  getResponseBuffer : list Request -> string -> Failure + option Buffer;
  (* gunzip and tar walk of ./extract: the members met in order, and the
     failure that ended the walk early, if any *)
  tarEntries : Buffer -> list ArchiveEntry.t * option Failure
}.

(** The process-wide state: the content cache and the log of requests
    issued so far (most recent first). *)
Record World := {
  cache : gmap string (option Buffer);
  requests : list Request
}.

(** Modelled from the spec: the content cache of ./cache (section 4.2),
    an in-memory mapping where the last [set] wins and nothing is evicted;
    [get] of a missing key is [undefined]. *)
Definition cacheGet (key : string) (w : World) : option Buffer :=
  mjoin (cache w !! key).

Definition cacheSet (key : string) (value : option Buffer) (w : World) : World :=
  {| cache := <[key := value]> (cache w); requests := requests w |}.

(** ** A small state-and-failure monad for the asynchronous functions

    Calls are run one after the other; a failure keeps the state reached
    so far, as an exception does. *)

Definition M (S A : Type) : Type := S -> (Failure + A) * S.

Definition ret {S A} (a : A) : M S A := fun s => (inr a, s).

Definition throw {S A} (e : Failure) : M S A := fun s => (inl e, s).

Definition bind {S A B} (m : M S A) (k : A -> M S B) : M S B :=
  fun s =>
    match m s with
    | (inl e, s') => (inl e, s')
    | (inr a, s') => k a s'
    end.

Notation "x <- m ;; k" := (bind m (fun x => k))
  (at level 100, m at next level, right associativity).
Notation "m ;;; k" := (bind m (fun _ => k))
  (at level 100, right associativity).

(** State update without a result. *)
Definition modify {S} (f : S -> S) : M S unit := fun s => (inr tt, f s).

(** Read the state. *)
Definition gets {S A} (f : S -> A) : M S A := fun s => (inr (f s), s).

(** Run a computation on the world inside a state that pairs local
    variables with the world. *)
Definition onWorld {L A} (m : M World A) : M (L * World) A :=
  fun '(l, w) => let '(r, w') := m w in (r, (l, w')).

(** Issue a request: log it and ask the oracle, which sees the earlier
    requests. *)
Definition request {A} (r : Request)
    (answer : list Request -> Failure + A) : M World A :=
  fun w =>
    (answer (requests w),
     {| cache := cache w; requests := r :: requests w |}).

(** ** The registry functions of index.ts *)

Section Registry.
Variable env : Env.

Definition fetchInfo (key : string) : M World RegistryPackage.t :=
  let url := Js.toString (registryUrl env) +:+ "/package/" +:+ key in
  request (GetUrl url) (fun earlier => fetchUrlJson env earlier url).

Definition fetchArchiveBuffer (key : string) : M World (option Buffer) :=
  pkg <- fetchInfo key ;;
  let archivePath := RegistryPackage.download pkg in
  let url := Js.toString (registryUrl env) +:+ Js.toString archivePath in
  request (GetResponseStream url)
          (fun earlier => getResponseBuffer env earlier url).

Definition archiveKey (pkgkey : string) : string := pkgkey +:+ ".tar.gz".

Definition getOrFetchArchiveBuffer (pkgkey : string) : M World Buffer :=
  let key := archiveKey pkgkey in
  cached <- gets (cacheGet key) ;;
  buffer <- match cached with
            | Some b => ret (Some b)
            | None =>
                fetched <- fetchArchiveBuffer pkgkey ;;
                modify (cacheSet key fetched) ;;;
                ret fetched
            end ;;
  match buffer with
  | Some b => ret b
  | None => throw (Error ("no archive buffer for " +:+ key))
  end.

(** Modelled from the spec: [untarBuffer] of ./extract (section 4.3). The
    members are walked in order; [filter] is asked about each member
    before its content is materialised, so it sees the member without a
    buffer; [onEntry] receives the accepted members with their content
    (none for a directory member). A malformed archive fails the call
    after the members met before the damage. *)
Definition untarBuffer {S} (archiveBuffer : Buffer)
    (filter : ArchiveEntry.t -> bool)
    (onEntry : ArchiveEntry.t -> S -> S) : M S unit :=
  let '(entries, failure) := tarEntries env archiveBuffer in
  modify (fun s =>
    fold_left
      (fun s entry =>
         if filter (ArchiveEntry.mk (ArchiveEntry.path entry) None)
         then onEntry entry s else s)
      entries s) ;;;
  match failure with
  | Some e => throw e
  | None => ret tt
  end.

Definition extract (pkgkey : string) (filter : ArchiveEntry.t -> bool)
    (onEntry : ArchiveEntry.t -> list string * World -> list string * World)
  : M (list string * World) unit :=
  archiveBuffer <- onWorld (getOrFetchArchiveBuffer pkgkey) ;;
  untarBuffer archiveBuffer filter onEntry.

(** The [onEntry] closure of [getArchiveInfo]; its captured [paths] array
    is the first component of the state. *)
Definition onEntry (entry : ArchiveEntry.t)
    (s : list string * World) : list string * World :=
  let '(paths, w) := s in
  let path := ArchiveEntry.path entry in
  let buffer := ArchiveEntry.buffer entry in
  let file := AssetParts.file (pathParts path) in
  if negb (Js.truthy file) then s
  else match buffer with
       | Some b => (paths ++ [path], cacheSet path (Some b) w)
       | None => s
       end.

Definition getArchiveInfo (pkgkey : string)
    (filter : ArchiveEntry.t -> bool) : M World (list string) :=
  fun w =>
    match extract pkgkey filter onEntry ([], w) with
    | (inl e, (_, w')) => (inl e, w')
    | (inr _, (paths, w')) => (inr paths, w')
    end.

(** The default [filter] argument. *)
Definition acceptAll (entry : ArchiveEntry.t) : bool := true.

End Registry.

Definition getAsset (key : string) : M World Buffer :=
  buffer <- gets (cacheGet key) ;;
  match buffer with
  | None => throw (Error ("Cannot find asset " +:+ key))
  | Some b => ret b
  end.

(** ** Grouping paths by service *)

(** How a synchronous call ends. The accumulator of the [reduce] is an
    object literal, so a computed key that names a property of
    [Object.prototype] does not reach the accumulator's own properties. *)
Inductive Completion (A : Type) :=
| Returned (a : A)
| TypeError   (* a call of [.push] on an inherited value, which is no array *)
| OnBuiltin.  (* [map[parts.service]] is a built-in object reached through
                 the prototype; the statements that follow read and write
                 that object, outside the state of this embedding *)
Arguments Returned {A} a.
Arguments TypeError {A}.
Arguments OnBuiltin {A}.

(** [AssetsGroupedByServiceByType]: only the [kibana] group is returned. *)
Record AssetsGroupedByServiceByType := {
  kibana : option (gmap string (list AssetParts.t))
}.

Section Grouping.
(** The own property names of the enum object [KibanaAssetType] of
    [common/types]. *)
Variable KibanaAssetType : list string.

(** [key in KibanaAssetType]. *)
Definition inKibanaAssetType (key : string) : bool :=
  bool_decide (key ∈ KibanaAssetType) || Js.inherited key.

(** The callback of the [reduce]. *)
Definition groupStep (map : gmap string (gmap string (list AssetParts.t)))
    (path : string)
  : Completion (gmap string (gmap string (list AssetParts.t))) :=
  let parts := pathParts (Js.stripPrefix "/package/" path) in
  let service := Js.toString (AssetParts.service parts) in
  let type := Js.toString (AssetParts.type parts) in
  if inKibanaAssetType type then
    if Js.inherited service then OnBuiltin
    else
      let byType := default ∅ (map !! service) in
      if Js.inherited type then TypeError
      else
        let assets := default [] (byType !! type) in
        Returned (<[service := <[type := assets ++ [parts]]> byType]> map)
  else Returned map.

Fixpoint reduce (paths : list string)
    (map : gmap string (gmap string (list AssetParts.t)))
  : Completion (gmap string (gmap string (list AssetParts.t))) :=
  match paths with
  | [] => Returned map
  | path :: rest =>
      match groupStep map path with
      | Returned map' => reduce rest map'
      | TypeError => TypeError
      | OnBuiltin => OnBuiltin
      end
  end.

Definition groupPathsByService (paths : list string)
  : Completion AssetsGroupedByServiceByType :=
  match reduce paths ∅ with
  | Returned assets => Returned {| kibana := assets !! "kibana" |}
  | TypeError => TypeError
  | OnBuiltin => OnBuiltin
  end.

End Grouping.

(** The parts a path is grouped by: the prefix is stripped first. *)
Definition groupedParts (path : string) : AssetParts.t :=
  pathParts (Js.stripPrefix "/package/" path).

(** The assets the accumulator holds under a service and a type. *)
Definition assetsAt (map : gmap string (gmap string (list AssetParts.t)))
    (service type : string) : list AssetParts.t :=
  default [] (map !! service ≫= (.!! type)).

(** The assets the result holds under a type of its [kibana] group. *)
Definition kibanaAssets (r : AssetsGroupedByServiceByType)
    (type : string) : list AssetParts.t :=
  default [] (kibana r ≫= (.!! type)).

(** A path belongs under [service] and [type]: these are its parsed
    service and type, and the type is a key of the enum. *)
Definition placedUnder (KibanaAssetType : list string)
    (service type : string) (path : string) : Prop :=
  Js.toString (AssetParts.service (groupedParts path)) = service
  /\ Js.toString (AssetParts.type (groupedParts path)) = type
  /\ type ∈ KibanaAssetType.

#[global] Instance placedUnder_dec K service type path :
  Decision (placedUnder K service type path).
Proof. unfold placedUnder. apply _. Defined.

(** Neither the parsed service nor the parsed type is a name inherited
    from [Object.prototype]. *)
Definition plainNames (path : string) : Prop :=
  Js.inherited (Js.toString (AssetParts.service (groupedParts path))) = false
  /\ Js.inherited (Js.toString (AssetParts.type (groupedParts path))) = false.

(** What [getArchiveInfo] does once it holds the archive buffer: the
    call of [untarBuffer] with its [onEntry], started with no paths. *)
Definition extractFrom (env : Env) (filter : ArchiveEntry.t -> bool)
    (archiveBuffer : Buffer) (w : World) : (Failure + list string) * World :=
  match untarBuffer env archiveBuffer filter onEntry ([], w) with
  | (inl e, (_, w')) => (inl e, w')
  | (inr _, (paths, w')) => (inr paths, w')
  end.

(** ** The specification's reading of the walk *)

(** What [untarBuffer] shows the filter of a member. *)
Definition header (entry : ArchiveEntry.t) : ArchiveEntry.t :=
  ArchiveEntry.mk (ArchiveEntry.path entry) None.

(** The specification's description of the members [getArchiveInfo]
    reports: accepted by the filter, with a non-empty parsed file, and
    carrying a content buffer. *)
Definition reportedBySpec (filter : ArchiveEntry.t -> bool)
    (entry : ArchiveEntry.t) : bool :=
  filter (header entry)
  && Js.truthy (AssetParts.file (pathParts (ArchiveEntry.path entry)))
  && bool_decide (is_Some (ArchiveEntry.buffer entry)).

(** Caching each member's buffer under its path, in order. *)
Definition cacheEntries (entries : list ArchiveEntry.t) (w : World) : World :=
  fold_left
    (fun w e => cacheSet (ArchiveEntry.path e) (ArchiveEntry.buffer e) w)
    entries w.

(** ** Sequences of calls and what is observed of them *)

(** A call of [getArchiveInfo]: its pkgkey and its filter. *)
Definition Call : Type := string * (ArchiveEntry.t -> bool).

(** The world after a sequence of calls made one after the other,
    whether they fail or not. *)
Definition run (env : Env) (calls : list Call) (w : World) : World :=
  fold_left (fun w c => (getArchiveInfo env c.1 c.2 w).2) calls w.

(** The call issues at least one request. *)
Definition usesNetwork (env : Env) (c : Call) (w : World) : bool :=
  negb (length (requests (getArchiveInfo env c.1 c.2 w).2)
        =? length (requests w)).

(** The call downloads the archive: the cache has no buffer under the
    archive key and the fetch resolves with one. *)
Definition downloadsArchive (env : Env) (c : Call) (w : World) : bool :=
  match cacheGet (archiveKey c.1) w, (fetchArchiveBuffer env c.1 w).1 with
  | None, inr (Some _) => true
  | _, _ => false
  end.

(** Number of calls for [pkgkey], in a sequence of calls, that satisfy an
    observation made in the world the call starts in. *)
Fixpoint countCalls (observe : Env -> Call -> World -> bool) (env : Env)
    (pkgkey : string) (calls : list Call) (w : World) : nat :=
  match calls with
  | [] => 0
  | c :: rest =>
      (if String.eqb c.1 pkgkey && observe env c w then 1 else 0)
      + countCalls observe env pkgkey rest (getArchiveInfo env c.1 c.2 w).2
  end.

(** ** The scenario of the specification, and registries that misbehave *)

Definition emptyWorld : World := {| cache := ∅; requests := [] |}.

Definition sampleJson : Buffer := [x7b; x7d].

Definition systemArchive : Buffer := [x1f; x8b; x08].

Definition systemPackage : RegistryPackage.t :=
  RegistryPackage.mk "system" "1.2.0" (Some "/epr/system/system-1.2.0.tar.gz").

Definition systemEntries : list ArchiveEntry.t :=
  [ ArchiveEntry.mk "system-1.2.0/kibana/dashboard/sample.json" (Some sampleJson);
    ArchiveEntry.mk "system-1.2.0/kibana/dashboard/" None ].

Definition systemInfo (url : string) : Failure + RegistryPackage.t :=
  if String.eqb url "http://registry/package/system-1.2.0"
  then inr systemPackage else inl (Rejected "404").

Definition systemMembers (archive : Buffer)
  : list ArchiveEntry.t * option Failure :=
  match archive with
  | [] => ([], None)
  | [x1f; x8b; x08] => (systemEntries, None)
  | _ => ([], Some (Rejected "invalid tar file"))
  end.

(** The registry of the scenario. *)
Definition scenarioEnv : Env := {|
  registryUrl := Some "http://registry";
  fetchUrlJson := fun _ url => systemInfo url;
  getResponseBuffer := fun _ url =>
    if String.eqb url "http://registry/epr/system/system-1.2.0.tar.gz"
    then inr (Some systemArchive) else inl (Rejected "404");
  tarEntries := systemMembers
|}.

Definition isStream (r : Request) : bool :=
  match r with
  | GetResponseStream _ => true
  | GetUrl _ => false
  end.

(** A registry whose first archive download breaks off and whose later
    ones succeed. *)
Definition flakyEnv : Env := {|
  registryUrl := Some "http://registry";
  fetchUrlJson := fun _ url => systemInfo url;
  getResponseBuffer := fun earlier _ =>
    if existsb isStream earlier
    then inr (Some systemArchive) else inl (Rejected "socket hang up");
  tarEntries := systemMembers
|}.

(** A registry that serves an archive of zero bytes. *)
Definition emptyArchiveEnv : Env := {|
  registryUrl := Some "http://registry";
  fetchUrlJson := fun _ url => systemInfo url;
  getResponseBuffer := fun _ _ => inr (Some []);
  tarEntries := systemMembers
|}.

(** A registry that cannot be reached. *)
Definition unreachableEnv : Env := {|
  registryUrl := Some "http://registry";
  fetchUrlJson := fun _ _ => inl (Rejected "ECONNREFUSED");
  getResponseBuffer := fun _ _ => inl (Rejected "ECONNREFUSED");
  tarEntries := systemMembers
|}.

(** A registry whose download resolves with no buffer at all. *)
Definition noBufferEnv : Env := {|
  registryUrl := Some "http://registry";
  fetchUrlJson := fun _ url => systemInfo url;
  getResponseBuffer := fun _ _ => inr None;
  tarEntries := systemMembers
|}.

(** An enum object with the keys of the Kibana asset types, standing in
    for the declaration in [common/types], and a mixed list of paths to
    run the grouping on. *)
Definition kibanaKeys : list string :=
  ["dashboard"; "visualization"; "search"; "indexPattern"].

Definition mixedPaths : list string :=
  [ "/package/system-1.2.0/kibana/dashboard/sample.json";
    "/package/system-1.2.0/elasticsearch/ingest-pipeline/default.json";
    "/package/system-1.2.0/kibana/unknown/notes.json";
    "system-1.2.0/kibana/dashboard/other.json" ].

(** ** Package keys *)

Definition pkgToPkgKey (pkg : RegistryPackage.t) : string :=
  RegistryPackage.name pkg +:+ "-" +:+ RegistryPackage.version pkg.

(** ** Registries that always answer *)

(** Every request for package info resolves with a package and every
    download resolves with a buffer. *)
Definition reliable (env : Env) : Prop :=
  (forall earlier url, exists pkg, fetchUrlJson env earlier url = inr pkg)
  /\ (forall earlier url,
        exists b, getResponseBuffer env earlier url = inr (Some b)).

(** A registry that serves the system package whatever it is asked. *)
Definition steadyEnv : Env := {|
  registryUrl := Some "http://registry";
  fetchUrlJson := fun _ _ => inr systemPackage;
  getResponseBuffer := fun _ _ => inr (Some systemArchive);
  tarEntries := systemMembers
|}.

(** The value the last write of a walk leaves under a key, if the walk
    writes the key at all. *)
Fixpoint lastWrite (key : string) (entries : list ArchiveEntry.t)
  : option (option Buffer) :=
  match entries with
  | [] => None
  | e :: rest =>
      match lastWrite key rest with
      | Some v => Some v
      | None =>
          if decide (ArchiveEntry.path e = key)
          then Some (ArchiveEntry.buffer e) else None
      end
  end.

(** A registry that serves a damaged archive. *)
Definition corruptEnv : Env := {|
  registryUrl := Some "http://registry";
  fetchUrlJson := fun _ url => systemInfo url;
  getResponseBuffer := fun _ _ => inr (Some [x00]);
  tarEntries := systemMembers
|}.

(** * Properties *)

(** ** Splitting and replacing *)

Section SplitFacts.
Variable sep : ascii.

Lemma split_segment_last (a : string) :
  Js.count sep a = 0 -> Js.split sep a = [a].
Proof.
  induction a as [|c a IH]; simpl; [done|].
  destruct (Ascii.eqb c sep); [done|].
  intros H. by rewrite IH.
Qed.

Lemma split_segment_cons (a r : string) :
  Js.count sep a = 0 ->
  Js.split sep (a +:+ String sep r) = a :: Js.split sep r.
Proof.
  induction a as [|c a IH]; simpl.
  - by rewrite Ascii.eqb_refl.
  - destruct (Ascii.eqb c sep); [done|].
    intros H. by rewrite IH.
Qed.

Lemma split_segment_sep (a r : string) :
  Js.count sep a = 0 ->
  Js.split sep (a +:+ String sep EmptyString +:+ r) = a :: Js.split sep r.
Proof. apply split_segment_cons. Qed.

Lemma length_split (s : string) :
  length (Js.split sep s) = S (Js.count sep s).
Proof.
  induction s as [|c s IH]; simpl; [done|].
  destruct (Ascii.eqb c sep); simpl; [by rewrite IH|].
  destruct (Js.split sep s); simpl in *; lia.
Qed.

Lemma startsWith_count (c : ascii) (p s : string) :
  Js.startsWith p s = true -> Js.count c p <= Js.count c s.
Proof.
  revert s. induction p as [|a p IH]; intros [|b s]; simpl; try done; [lia|].
  intros [Hab Hps]%andb_true_iff.
  apply Ascii.eqb_eq in Hab as ->. specialize (IH _ Hps). lia.
Qed.

Lemma replace_absent (c : ascii) (pat rep s : string) :
  Js.count c s < Js.count c pat -> Js.replace pat rep s = s.
Proof.
  induction s as [|a s IH]; intros Hlt.
  - simpl. destruct (Js.startsWith pat "") eqn:E; [|done].
    apply (startsWith_count c) in E. simpl in *. lia.
  - simpl. destruct (Js.startsWith pat (String a s)) eqn:E.
    + apply (startsWith_count c) in E. lia.
    + rewrite IH; [done|]. simpl in Hlt. lia.
Qed.

End SplitFacts.

(** ** The path parser *)

Lemma pathParts_path (path : string) :
  AssetParts.path (pathParts path) = path.
Proof.
  unfold pathParts.
  destruct (destructure4 (Js.split "/" path)) as [[[k s] t] f].
  destruct (Js.strictEq s "dataset").
  - destruct (destructure4 _) as [[[k' s'] t'] f']. by destruct f'.
  - by destruct f.
Qed.

(** C6. A path of exactly four segments whose second segment is not
    [dataset] parses to its four segments, in order, as pkgkey, service,
    type and file; dataset is undefined and path is the input. *)
Theorem pathParts_four_segments (a b c d : string) :
  Js.count "/" a = 0 -> Js.count "/" b = 0 ->
  Js.count "/" c = 0 -> Js.count "/" d = 0 ->
  b <> "dataset" ->
  let path := a +:+ "/" +:+ b +:+ "/" +:+ c +:+ "/" +:+ d in
  pathParts path
  = AssetParts.mk (Some a) (Some b) (Some c) (Some d) None path.
Proof.
  intros Ha Hb Hc Hd Hne path. unfold pathParts, path.
  rewrite !(split_segment_sep "/"), split_segment_last by done.
  apply String.eqb_neq in Hne. simpl. by rewrite Hne.
Qed.

Lemma pathParts_four_segments_witness :
  pathParts "system-1.2.0/kibana/dashboard/sample.json"
  = AssetParts.mk (Some "system-1.2.0") (Some "kibana") (Some "dashboard")
      (Some "sample.json") None "system-1.2.0/kibana/dashboard/sample.json".
Proof.
  apply (pathParts_four_segments
           "system-1.2.0" "kibana" "dashboard" "sample.json");
    (reflexivity || discriminate).
Defined.

(** C8. A path of exactly three segments whose second segment is not
    [dataset] gets the fields shift: file is the third segment, type is
    [fields], service is the empty string, dataset is undefined. *)
Theorem pathParts_three_segments (a b c : string) :
  Js.count "/" a = 0 -> Js.count "/" b = 0 -> Js.count "/" c = 0 ->
  b <> "dataset" ->
  let path := a +:+ "/" +:+ b +:+ "/" +:+ c in
  pathParts path
  = AssetParts.mk (Some a) (Some "") (Some "fields") (Some c) None path.
Proof.
  intros Ha Hb Hc Hne path. unfold pathParts, path.
  rewrite !(split_segment_sep "/"), split_segment_last by done.
  apply String.eqb_neq in Hne. simpl. by rewrite Hne.
Qed.

Lemma pathParts_three_segments_witness :
  pathParts "pkg-1.0/kibana/fields.yml"
  = AssetParts.mk (Some "pkg-1.0") (Some "") (Some "fields")
      (Some "fields.yml") None "pkg-1.0/kibana/fields.yml".
Proof.
  apply (pathParts_three_segments "pkg-1.0" "kibana" "fields.yml");
    (reflexivity || discriminate).
Defined.

(** C9. [pathParts] is a total function: on every string it returns a
    record whose path is the input; on a path of fewer than three segments
    (at most one slash, the empty string included) that record has the
    first segment as pkgkey and the fields shift applied, with file and
    dataset undefined. *)
Theorem pathParts_total (path : string) :
  AssetParts.path (pathParts path) = path
  /\ (Js.count "/" path < 2 ->
      exists pkgkey,
        Js.split "/" path !! 0 = Some pkgkey
        /\ pathParts path
           = AssetParts.mk (Some pkgkey) (Some "") (Some "fields") None None
               path).
Proof.
  split; [apply pathParts_path|]. intros Hlt.
  pose proof (length_split "/" path) as Hlen.
  destruct (Js.split "/" path) as [|k [|s [|t rest]]] eqn:Hsplit;
    simpl in Hlen; try lia.
  - exists k. split; [done|].
    unfold pathParts. rewrite Hsplit. reflexivity.
  - exists k. split; [done|].
    unfold pathParts. rewrite Hsplit. simpl.
    destruct (String.eqb s "dataset"); [|done].
    rewrite (replace_absent "/") by (simpl; lia).
    rewrite Hsplit. reflexivity.
Qed.

Lemma pathParts_total_witness :
  (pathParts "" = AssetParts.mk (Some "") (Some "") (Some "fields") None None "")
  /\ (pathParts "system-1.2.0"
      = AssetParts.mk (Some "system-1.2.0") (Some "") (Some "fields") None None
          "system-1.2.0")
  /\ (pathParts "pkg-1.0/dataset"
      = AssetParts.mk (Some "pkg-1.0") (Some "") (Some "fields") None None
          "pkg-1.0/dataset").
Proof.
  split; [|split].
  - destruct (proj2 (pathParts_total "")) as (k & Hk & ->); [simpl; lia|].
    by injection Hk as <-.
  - destruct (proj2 (pathParts_total "system-1.2.0")) as (k & Hk & ->);
      [simpl; lia|].
    by injection Hk as <-.
  - destruct (proj2 (pathParts_total "pkg-1.0/dataset")) as (k & Hk & ->);
      [simpl; lia|].
    by injection Hk as <-.
Defined.

(** The record claimed for [pkg-1.0/dataset/ds1/fields.yml] is not the
    one returned: only two segments remain once [dataset/ds1/] is removed,
    so the shift copies an undefined type into file. *)
Lemma pathParts_dataset_fields_file_undefined :
  pathParts "pkg-1.0/dataset/ds1/fields.yml"
  <> AssetParts.mk (Some "pkg-1.0") (Some "") (Some "fields")
       (Some "fields.yml") (Some "ds1") "pkg-1.0/dataset/ds1/fields.yml".
Proof. vm_compute. discriminate. Qed.

(** C10 (amended). With the dataset marker present and fewer than four
    segments left after the [dataset/<name>/] portion is removed, the
    fields shift is applied to the re-split remainder: service is empty,
    type is [fields], dataset is kept, and file is the third remaining
    segment, which is undefined when only two remain. *)
Theorem pathParts_dataset_fields_shift (path : string) :
  Js.split "/" path !! 1 = Some "dataset" ->
  let dataset := Js.split "/" path !! 2 in
  let rest :=
    Js.split "/"
      (Js.replace ("dataset/" +:+ Js.toString dataset +:+ "/") "" path) in
  length rest < 4 ->
  pathParts path
  = AssetParts.mk (rest !! 0) (Some "") (Some "fields") (rest !! 2)
      dataset path.
Proof.
  intros Hmarker dataset rest Hlen.
  unfold pathParts, destructure4. rewrite Hmarker. simpl Js.strictEq. cbv iota.
  fold dataset. fold rest.
  by rewrite (lookup_ge_None_2 rest 3) by lia.
Qed.

Lemma pathParts_dataset_fields_shift_witness :
  pathParts "pkg-1.0/dataset/ds1/fields.yml"
  = AssetParts.mk (Some "pkg-1.0") (Some "") (Some "fields") None
      (Some "ds1") "pkg-1.0/dataset/ds1/fields.yml".
Proof.
  apply (pathParts_dataset_fields_shift "pkg-1.0/dataset/ds1/fields.yml").
  - reflexivity.
  - simpl. lia.
Defined.

(** The layout the shift is written for: a [fields.yml] inside the
    [fields] directory of a dataset. *)
Example pathParts_dataset_fields_directory :
  pathParts "pkg-1.0/dataset/ds1/fields/fields.yml"
  = AssetParts.mk (Some "pkg-1.0") (Some "") (Some "fields")
      (Some "fields.yml") (Some "ds1") "pkg-1.0/dataset/ds1/fields/fields.yml".
Proof. reflexivity. Qed.

(** ** Grouping paths by service *)

Section GroupingFacts.
Variable K : list string.

Lemma assetsAt_insert map service type assets s t :
  assetsAt (<[service := <[type := assets]> (default ∅ (map !! service))]> map) s t
  = if decide (service = s /\ type = t) then assets else assetsAt map s t.
Proof.
  unfold assetsAt.
  destruct (decide (service = s)) as [->|Hs].
  - rewrite lookup_insert_eq. simpl.
    destruct (decide (type = t)) as [->|Ht].
    + rewrite lookup_insert_eq. by rewrite decide_True.
    + rewrite lookup_insert_ne by done.
      rewrite decide_False by (intros [_ ?]; done).
      by destruct (map !! s).
  - rewrite lookup_insert_ne by done.
    by rewrite decide_False by (intros [? _]; done).
Qed.

Lemma groupStep_plain map path :
  plainNames path ->
  exists map',
    groupStep K map path = Returned map'
    /\ forall s t,
         assetsAt map' s t
         = assetsAt map s t
           ++ (groupedParts <$> filter (placedUnder K s t) [path]).
Proof.
  intros [Hservice Htype]. unfold groupStep, inKibanaAssetType.
  fold (groupedParts path). rewrite Hservice, Htype, orb_false_r.
  case_bool_decide as Hin.
  - eexists. split; [done|]. intros s t. rewrite assetsAt_insert.
    case_decide as Hst.
    + destruct Hst as [<- <-].
      rewrite filter_cons_True by (by unfold placedUnder).
      unfold assetsAt. by destruct (map !! _).
    + rewrite filter_cons_False
        by (intros (? & ? & _); apply Hst; by split).
      by rewrite app_nil_r.
  - eexists. split; [done|]. intros s t.
    rewrite filter_cons_False
      by (intros (_ & <- & ?); by apply Hin).
    by rewrite app_nil_r.
Qed.

Lemma reduce_plain paths : forall map,
  Forall plainNames paths ->
  exists map',
    reduce K paths map = Returned map'
    /\ forall s t,
         assetsAt map' s t
         = assetsAt map s t
           ++ (groupedParts <$> filter (placedUnder K s t) paths).
Proof.
  induction paths as [|path rest IH]; intros map Hplain.
  - exists map. split; [done|]. intros. by rewrite app_nil_r.
  - apply Forall_cons in Hplain as [Hpath Hrest].
    destruct (groupStep_plain map path Hpath) as (map1 & Hstep & Hat1).
    destruct (IH map1 Hrest) as (map' & Hred & Hat').
    exists map'. simpl. rewrite Hstep. split; [done|].
    intros s t. rewrite Hat', Hat1, <- app_assoc, <- fmap_app. do 2 f_equal.
    by rewrite <- filter_app.
Qed.

End GroupingFacts.

(** A path whose type is a key of the enum but whose service is not
    [kibana] is left out of the result. *)
Lemma groupPathsByService_drops_other_service :
  let K := kibanaKeys in
  let path := "/package/pkg-1.0/elasticsearch/dashboard/overview.json" in
  AssetParts.service (groupedParts path) = Some "elasticsearch"
  /\ AssetParts.type (groupedParts path) = Some "dashboard"
  /\ inKibanaAssetType K "dashboard" = true
  /\ groupPathsByService K [path] = Returned {| kibana := None |}.
Proof. repeat split; vm_compute; reflexivity. Qed.

(** C3 (amended). Only the [kibana] group is returned. For paths whose
    parsed service and type are not names inherited from
    [Object.prototype], the call returns, and under each type the
    [kibana] group holds the parts of exactly the paths whose type is that
    key of the enum and whose service is [kibana]: one entry per
    occurrence in the input, in input order. Every other path is left
    out. *)
Theorem groupPathsByService_kibana (K : list string) (paths : list string) :
  Forall plainNames paths ->
  exists r,
    groupPathsByService K paths = Returned r
    /\ forall type,
         kibanaAssets r type
         = groupedParts <$> filter (placedUnder K "kibana" type) paths.
Proof.
  intros Hplain.
  destruct (reduce_plain K paths ∅ Hplain) as (map' & Hred & Hat).
  unfold groupPathsByService. rewrite Hred. eexists. split; [done|].
  intros type. unfold kibanaAssets. simpl.
  specialize (Hat "kibana" type). unfold assetsAt in Hat at 1 2.
  rewrite lookup_empty in Hat. exact Hat.
Qed.

Lemma groupPathsByService_kibana_witness :
  exists r,
    groupPathsByService kibanaKeys mixedPaths = Returned r
    /\ kibanaAssets r "dashboard"
       = [ pathParts "system-1.2.0/kibana/dashboard/sample.json";
           pathParts "system-1.2.0/kibana/dashboard/other.json" ]
    /\ kibanaAssets r "unknown" = []
    /\ kibanaAssets r "ingest-pipeline" = [].
Proof.
  destruct (groupPathsByService_kibana kibanaKeys mixedPaths) as (r & Hr & Hat).
  - repeat constructor; vm_compute; reflexivity.
  - exists r. split; [exact Hr|]. rewrite !Hat. repeat split.
Defined.

(** A parsed type that names a property of [Object.prototype] passes the
    [in] test and ends the call with a [TypeError]; a parsed service that
    does so sends the callback to a built-in object. *)
Example groupPathsByService_inherited_type :
  groupPathsByService kibanaKeys ["/package/pkg-1.0/kibana/constructor/x.json"]
  = TypeError.
Proof. reflexivity. Qed.

Example groupPathsByService_inherited_service :
  groupPathsByService kibanaKeys ["/package/pkg-1.0/__proto__/dashboard/x.json"]
  = OnBuiltin.
Proof. reflexivity. Qed.

(** ** The cache and the archive lookup *)

Lemma cacheGet_cacheSet key k v w :
  cacheGet key (cacheSet k v w) = if decide (k = key) then v else cacheGet key w.
Proof.
  unfold cacheGet, cacheSet. simpl. rewrite lookup_insert.
  by case_decide.
Qed.

Lemma cacheGet_cacheSet_keeps key k b w :
  is_Some (cacheGet key w) -> is_Some (cacheGet key (cacheSet k (Some b) w)).
Proof. intros H. rewrite cacheGet_cacheSet. case_decide; eauto. Qed.

Section RegistryFacts.
Variable env : Env.

(** A fetch issues requests and leaves the cache alone. *)
Lemma fetchArchiveBuffer_world key w :
  cache (fetchArchiveBuffer env key w).2 = cache w
  /\ length (requests w) < length (requests (fetchArchiveBuffer env key w).2).
Proof.
  unfold fetchArchiveBuffer, fetchInfo, bind, request. simpl.
  destruct (fetchUrlJson env _ _); simpl; split; (done || lia).
Qed.

Lemma fetchArchiveBuffer_cacheGet key k w :
  cacheGet k (fetchArchiveBuffer env key w).2 = cacheGet k w.
Proof.
  unfold cacheGet. by rewrite (proj1 (fetchArchiveBuffer_world key w)).
Qed.

Lemma getOrFetchArchiveBuffer_hit pkgkey w b :
  cacheGet (archiveKey pkgkey) w = Some b ->
  getOrFetchArchiveBuffer env pkgkey w = (inr b, w).
Proof.
  intros Hhit. unfold getOrFetchArchiveBuffer, bind, gets. by rewrite Hhit.
Qed.

Lemma getOrFetchArchiveBuffer_miss pkgkey w :
  cacheGet (archiveKey pkgkey) w = None ->
  getOrFetchArchiveBuffer env pkgkey w
  = match fetchArchiveBuffer env pkgkey w with
    | (inl e, w') => (inl e, w')
    | (inr (Some b), w') => (inr b, cacheSet (archiveKey pkgkey) (Some b) w')
    | (inr None, w') =>
        (inl (Error ("no archive buffer for " +:+ archiveKey pkgkey)),
         cacheSet (archiveKey pkgkey) None w')
    end.
Proof.
  intros Hmiss. unfold getOrFetchArchiveBuffer, bind, gets. rewrite Hmiss.
  destruct (fetchArchiveBuffer env pkgkey w) as [[e|[b|]] w']; reflexivity.
Qed.

Lemma reportedBySpec_spec (accept : ArchiveEntry.t -> bool) e :
  reportedBySpec accept e = true
  <-> accept (header e) = true
      /\ Js.truthy (AssetParts.file (pathParts (ArchiveEntry.path e))) = true
      /\ exists b, ArchiveEntry.buffer e = Some b.
Proof.
  unfold reportedBySpec. rewrite !andb_true_iff, bool_decide_eq_true.
  unfold is_Some. tauto.
Qed.

(** The walk of the members, as the specification words it. *)
Lemma walk_reported (accept : ArchiveEntry.t -> bool) entries : forall paths w,
  fold_left
    (fun s entry =>
       if accept (ArchiveEntry.mk (ArchiveEntry.path entry) None)
       then onEntry entry s else s)
    entries (paths, w)
  = (paths ++ (ArchiveEntry.path <$>
                 filter (fun e => reportedBySpec accept e) entries),
     cacheEntries (filter (fun e => reportedBySpec accept e) entries) w).
Proof.
  induction entries as [|e rest IH]; intros paths w; simpl.
  - by rewrite app_nil_r.
  - destruct (decide (reportedBySpec accept e)) as [Hrep|Hrep].
    + rewrite filter_cons_True by done.
      apply Is_true_true, reportedBySpec_spec in Hrep as (Hf & Ht & b & Hb).
      unfold header in Hf. unfold onEntry. rewrite Hf, Ht, Hb. simpl.
      rewrite IH, <- app_assoc. unfold cacheEntries. simpl. by rewrite Hb.
    + rewrite filter_cons_False by done. rewrite <- IH. f_equal.
      destruct (accept _) eqn:Hf; [|done].
      unfold onEntry. destruct (Js.truthy _) eqn:Ht; simpl; [|done].
      destruct (ArchiveEntry.buffer e) as [b|] eqn:Hb; [|done].
      exfalso. apply Hrep, Is_true_true, reportedBySpec_spec. eauto.
Qed.

Lemma getArchiveInfo_failed_lookup pkgkey accept w e w1 :
  getOrFetchArchiveBuffer env pkgkey w = (inl e, w1) ->
  getArchiveInfo env pkgkey accept w = (inl e, w1).
Proof.
  intros Hget. unfold getArchiveInfo, extract, bind, onWorld. by rewrite Hget.
Qed.

Lemma getArchiveInfo_extracted pkgkey accept w archive w1 entries failure :
  getOrFetchArchiveBuffer env pkgkey w = (inr archive, w1) ->
  tarEntries env archive = (entries, failure) ->
  let reported := filter (fun e => reportedBySpec accept e) entries in
  getArchiveInfo env pkgkey accept w
  = (match failure with
     | Some e => inl e
     | None => inr (ArchiveEntry.path <$> reported)
     end,
     cacheEntries reported w1).
Proof.
  intros Hget Hwalk reported.
  unfold getArchiveInfo, extract, untarBuffer, bind, onWorld, modify.
  rewrite Hget, Hwalk, walk_reported. fold reported. simpl.
  by destruct failure.
Qed.

End RegistryFacts.

(** ** Caching the members of an archive *)

Lemma cacheEntries_app es1 es2 w :
  cacheEntries (es1 ++ es2) w = cacheEntries es2 (cacheEntries es1 w).
Proof. unfold cacheEntries. by rewrite fold_left_app. Qed.

Lemma cacheEntries_requests es : forall w,
  requests (cacheEntries es w) = requests w.
Proof.
  induction es as [|e es IH]; intros w; [done|].
  change (cacheEntries (e :: es) w)
    with (cacheEntries es
            (cacheSet (ArchiveEntry.path e) (ArchiveEntry.buffer e) w)).
  by rewrite IH.
Qed.

Lemma cacheEntries_other key es : forall w,
  key ∉ (ArchiveEntry.path <$> es) ->
  cacheGet key (cacheEntries es w) = cacheGet key w.
Proof.
  induction es as [|e es IH]; intros w Hnotin; [done|].
  rewrite fmap_cons, not_elem_of_cons in Hnotin. destruct Hnotin as [Hne Hrest].
  change (cacheEntries (e :: es) w)
    with (cacheEntries es
            (cacheSet (ArchiveEntry.path e) (ArchiveEntry.buffer e) w)).
  rewrite IH by done. rewrite cacheGet_cacheSet. by rewrite decide_False.
Qed.

Lemma cacheEntries_last before e after w :
  ArchiveEntry.path e ∉ (ArchiveEntry.path <$> after) ->
  cacheGet (ArchiveEntry.path e) (cacheEntries (before ++ e :: after) w)
  = ArchiveEntry.buffer e.
Proof.
  intros Hlast. rewrite cacheEntries_app.
  change (cacheEntries (e :: after) ?w')
    with (cacheEntries after
            (cacheSet (ArchiveEntry.path e) (ArchiveEntry.buffer e) w')).
  rewrite cacheEntries_other by done.
  rewrite cacheGet_cacheSet. by rewrite decide_True.
Qed.

Lemma cacheEntries_keeps key es : forall w,
  Forall (fun e => is_Some (ArchiveEntry.buffer e)) es ->
  is_Some (cacheGet key w) -> is_Some (cacheGet key (cacheEntries es w)).
Proof.
  induction es as [|e es IH]; intros w Hall Hsome; [done|].
  apply Forall_cons in Hall as [[b Hb] Hall].
  change (cacheEntries (e :: es) w)
    with (cacheEntries es
            (cacheSet (ArchiveEntry.path e) (ArchiveEntry.buffer e) w)).
  apply IH; [done|]. rewrite Hb. by apply cacheGet_cacheSet_keeps.
Qed.

Lemma reported_have_buffers (accept : ArchiveEntry.t -> bool) entries :
  Forall (fun e => is_Some (ArchiveEntry.buffer e))
         (filter (fun e => reportedBySpec accept e) entries).
Proof.
  apply Forall_forall. intros e [Hrep _]%list_elem_of_filter.
  apply Is_true_true, reportedBySpec_spec in Hrep as (_ & _ & b & Hb). eauto.
Qed.

Lemma last_with_path (p : string) (es : list ArchiveEntry.t) :
  p ∈ (ArchiveEntry.path <$> es) ->
  exists before e after,
    es = before ++ e :: after
    /\ ArchiveEntry.path e = p
    /\ p ∉ (ArchiveEntry.path <$> after).
Proof.
  induction es as [|x es IH]; intros Hin; [by apply elem_of_nil in Hin|].
  destruct (decide (p ∈ (ArchiveEntry.path <$> es))) as [Hlater|Hlast].
  - destruct (IH Hlater) as (before & e & after & -> & Hp & Hnot).
    by exists (x :: before), e, after.
  - rewrite fmap_cons in Hin. apply elem_of_cons in Hin as [Hp|Hrest]; [|done].
    by exists [], x, es.
Qed.

(** ** getArchiveInfo and getAsset *)

(** C4. When the archive buffer is obtained and its walk succeeds,
    [getArchiveInfo] returns exactly the paths of the members that the
    filter accepts, that have a non-empty parsed file and that carry a
    buffer, in archive order; the world it leaves is the one where each of
    these paths has been cached with that member's buffer; a member with
    an empty parsed file is in neither: its path is not returned and the
    cache under its path is what it was before the walk. *)
Theorem getArchiveInfo_reports (env : Env) (pkgkey : string)
    (accept : ArchiveEntry.t -> bool) (w w1 : World) (archive : Buffer)
    (entries : list ArchiveEntry.t) :
  getOrFetchArchiveBuffer env pkgkey w = (inr archive, w1) ->
  tarEntries env archive = (entries, None) ->
  let reported := filter (fun e => reportedBySpec accept e) entries in
  let w2 := (getArchiveInfo env pkgkey accept w).2 in
  (getArchiveInfo env pkgkey accept w).1 = inr (ArchiveEntry.path <$> reported)
  /\ w2 = cacheEntries reported w1
  /\ forall e,
       e ∈ entries ->
       Js.truthy (AssetParts.file (pathParts (ArchiveEntry.path e))) = false ->
       (ArchiveEntry.path e ∉ (ArchiveEntry.path <$> reported))
       /\ cacheGet (ArchiveEntry.path e) w2 = cacheGet (ArchiveEntry.path e) w1.
Proof.
  intros Hget Hwalk reported w2. subst w2.
  rewrite (getArchiveInfo_extracted env pkgkey accept w archive w1 entries None)
    by done.
  fold reported. simpl. split; [done|]. split; [done|].
  intros e _ Hfile.
  assert (ArchiveEntry.path e ∉ (ArchiveEntry.path <$> reported)) as Hnot.
  { intros (e' & Hpath & [Hrep _]%list_elem_of_filter)%list_elem_of_fmap.
    apply Is_true_true, reportedBySpec_spec in Hrep as (_ & Ht & _).
    rewrite <- Hpath in Ht. congruence. }
  split; [done|]. by apply cacheEntries_other.
Qed.

Lemma getArchiveInfo_reports_witness :
  (getArchiveInfo scenarioEnv "system-1.2.0" acceptAll emptyWorld).1
  = inr ["system-1.2.0/kibana/dashboard/sample.json"].
Proof.
  apply (getArchiveInfo_reports scenarioEnv "system-1.2.0" acceptAll emptyWorld
           (getOrFetchArchiveBuffer scenarioEnv "system-1.2.0" emptyWorld).2
           systemArchive systemEntries);
    reflexivity.
Defined.

(** C5. [getAsset] on a key the cache does not hold fails with
    [Cannot find asset <key>] and returns no buffer; once a call of
    [getArchiveInfo] has walked an archive, [getAsset] on a path it cached
    returns the bytes of the archive member cached under that path (the
    last such member, should the archive repeat a path), and so returns
    the bytes of a member with that path for every reported path. *)
Theorem getAsset_cache_only (env : Env) (pkgkey : string)
    (accept : ArchiveEntry.t -> bool) (w w1 : World) (archive : Buffer)
    (entries : list ArchiveEntry.t) (failure : option Failure) :
  getOrFetchArchiveBuffer env pkgkey w = (inr archive, w1) ->
  tarEntries env archive = (entries, failure) ->
  let reported := filter (fun e => reportedBySpec accept e) entries in
  let w2 := (getArchiveInfo env pkgkey accept w).2 in
  (forall key w0,
     cacheGet key w0 = None ->
     getAsset key w0 = (inl (Error ("Cannot find asset " +:+ key)), w0))
  /\ (forall before e after b,
        reported = before ++ e :: after ->
        ArchiveEntry.path e ∉ (ArchiveEntry.path <$> after) ->
        ArchiveEntry.buffer e = Some b ->
        getAsset (ArchiveEntry.path e) w2 = (inr b, w2))
  /\ (forall p,
        p ∈ (ArchiveEntry.path <$> reported) ->
        exists e b,
          e ∈ entries /\ ArchiveEntry.path e = p
          /\ ArchiveEntry.buffer e = Some b
          /\ getAsset p w2 = (inr b, w2)).
Proof.
  intros Hget Hwalk reported w2.
  assert (w2 = cacheEntries reported w1) as Hw2.
  { subst w2. by rewrite (getArchiveInfo_extracted env pkgkey accept w archive
                            w1 entries failure) by done. }
  assert (forall before e after b,
            reported = before ++ e :: after ->
            ArchiveEntry.path e ∉ (ArchiveEntry.path <$> after) ->
            ArchiveEntry.buffer e = Some b ->
            getAsset (ArchiveEntry.path e) w2 = (inr b, w2)) as Hlast.
  { intros before e after b Hsplit Hnot Hb.
    unfold getAsset, bind, gets.
    by rewrite Hw2, Hsplit, cacheEntries_last, Hb by done. }
  split; [|split; [exact Hlast|]].
  - intros key w0 Hnone. unfold getAsset, bind, gets. by rewrite Hnone.
  - intros p Hp.
    destruct (last_with_path p reported Hp)
      as (before & e & after & Hsplit & Hpath & Hnot).
    assert (e ∈ reported) as Hin.
    { rewrite Hsplit. apply elem_of_app. right. apply elem_of_cons. by left. }
    apply list_elem_of_filter in Hin as [Hrep Hin].
    apply Is_true_true, reportedBySpec_spec in Hrep as (_ & _ & b & Hb).
    exists e, b. repeat split; try done.
    rewrite <- Hpath. apply (Hlast before e after b); [done| |done].
    by rewrite Hpath.
Qed.

Lemma getAsset_cache_only_witness :
  let path := "system-1.2.0/kibana/dashboard/sample.json" in
  let w2 := (getArchiveInfo scenarioEnv "system-1.2.0" acceptAll emptyWorld).2 in
  getAsset path emptyWorld = (inl (Error ("Cannot find asset " +:+ path)), emptyWorld)
  /\ getAsset path w2 = (inr sampleJson, w2).
Proof.
  intros path w2.
  destruct (getAsset_cache_only scenarioEnv "system-1.2.0" acceptAll emptyWorld
              (getOrFetchArchiveBuffer scenarioEnv "system-1.2.0" emptyWorld).2
              systemArchive systemEntries None eq_refl eq_refl)
    as (Habsent & Hlast & _).
  split.
  - apply Habsent. reflexivity.
  - apply (Hlast [] (ArchiveEntry.mk path (Some sampleJson)) [] sampleJson).
    + reflexivity.
    + apply not_elem_of_nil.
    + reflexivity.
Defined.

(** ** Fetching the archive at most once *)

Section FetchFacts.
Variable env : Env.

Lemma extractFrom_walk (accept : ArchiveEntry.t -> bool) archive w :
  extractFrom env accept archive w
  = let reported :=
      filter (fun e => reportedBySpec accept e) (tarEntries env archive).1 in
    (match (tarEntries env archive).2 with
     | Some e => inl e
     | None => inr (ArchiveEntry.path <$> reported)
     end,
     cacheEntries reported w).
Proof.
  unfold extractFrom, untarBuffer, bind, modify.
  destruct (tarEntries env archive) as [entries failure]. simpl.
  rewrite walk_reported. by destruct failure.
Qed.

Lemma extractFrom_requests accept archive w :
  requests (extractFrom env accept archive w).2 = requests w.
Proof. rewrite extractFrom_walk. simpl. apply cacheEntries_requests. Qed.

Lemma extractFrom_keeps accept archive w key :
  is_Some (cacheGet key w) ->
  is_Some (cacheGet key (extractFrom env accept archive w).2).
Proof.
  rewrite extractFrom_walk. simpl.
  apply cacheEntries_keeps, reported_have_buffers.
Qed.

(** The four ways a call of [getArchiveInfo] goes. *)
Lemma getArchiveInfo_cases pkgkey accept w :
  getArchiveInfo env pkgkey accept w
  = match cacheGet (archiveKey pkgkey) w with
    | Some b => extractFrom env accept b w
    | None =>
        match fetchArchiveBuffer env pkgkey w with
        | (inl e, w') => (inl e, w')
        | (inr None, w') =>
            (inl (Error ("no archive buffer for " +:+ archiveKey pkgkey)),
             cacheSet (archiveKey pkgkey) None w')
        | (inr (Some b), w') =>
            extractFrom env accept b (cacheSet (archiveKey pkgkey) (Some b) w')
        end
    end.
Proof.
  unfold getArchiveInfo, extract, extractFrom.
  unfold bind at 1. unfold onWorld.
  destruct (cacheGet (archiveKey pkgkey) w) as [b|] eqn:Hcache.
  - by rewrite (getOrFetchArchiveBuffer_hit env pkgkey w b).
  - rewrite getOrFetchArchiveBuffer_miss by done.
    by destruct (fetchArchiveBuffer env pkgkey w) as [[e|[b|]] w'].
Qed.

Lemma getArchiveInfo_keeps_cached pkgkey accept w key :
  is_Some (cacheGet key w) ->
  is_Some (cacheGet key (getArchiveInfo env pkgkey accept w).2).
Proof.
  intros Hsome. rewrite getArchiveInfo_cases.
  destruct (cacheGet (archiveKey pkgkey) w) as [b|] eqn:Hcache.
  - by apply extractFrom_keeps.
  - pose proof (fetchArchiveBuffer_cacheGet env pkgkey key w) as Hsame.
    pose proof (fetchArchiveBuffer_cacheGet env pkgkey (archiveKey pkgkey) w)
      as Hsame'.
    destruct (fetchArchiveBuffer env pkgkey w) as [[e|[b|]] w']; simpl in *.
    + by rewrite Hsame.
    + apply extractFrom_keeps, cacheGet_cacheSet_keeps. by rewrite Hsame.
    + rewrite cacheGet_cacheSet. case_decide as Hkey; [|by rewrite Hsame].
      subst key. rewrite Hcache in Hsome. by destruct Hsome.
Qed.

Lemma getArchiveInfo_hit_requests pkgkey accept w :
  is_Some (cacheGet (archiveKey pkgkey) w) ->
  requests (getArchiveInfo env pkgkey accept w).2 = requests w.
Proof.
  intros [b Hb]. rewrite getArchiveInfo_cases, Hb. apply extractFrom_requests.
Qed.

Lemma getArchiveInfo_miss_requests pkgkey accept w :
  cacheGet (archiveKey pkgkey) w = None ->
  length (requests w) < length (requests (getArchiveInfo env pkgkey accept w).2).
Proof.
  intros Hmiss. rewrite getArchiveInfo_cases, Hmiss.
  pose proof (proj2 (fetchArchiveBuffer_world env pkgkey w)) as Hgrow.
  destruct (fetchArchiveBuffer env pkgkey w) as [[e|[b|]] w']; simpl in *.
  - done.
  - by rewrite extractFrom_requests.
  - done.
Qed.

Lemma downloadsArchive_caches pkgkey accept w :
  downloadsArchive env (pkgkey, accept) w = true ->
  is_Some (cacheGet (archiveKey pkgkey) (getArchiveInfo env pkgkey accept w).2).
Proof.
  unfold downloadsArchive. simpl. rewrite getArchiveInfo_cases.
  destruct (cacheGet (archiveKey pkgkey) w) as [b|]; [done|].
  destruct (fetchArchiveBuffer env pkgkey w) as [[e|[b|]] w']; simpl; try done.
  intros _. apply extractFrom_keeps. rewrite cacheGet_cacheSet.
  rewrite decide_True by done. eauto.
Qed.

Lemma run_keeps_cached calls : forall w key,
  is_Some (cacheGet key w) -> is_Some (cacheGet key (run env calls w)).
Proof.
  induction calls as [|c calls IH]; intros w key Hsome; [done|].
  apply IH. by apply getArchiveInfo_keeps_cached.
Qed.

Lemma countCalls_downloads_cached pkgkey calls : forall w,
  is_Some (cacheGet (archiveKey pkgkey) w) ->
  countCalls downloadsArchive env pkgkey calls w = 0.
Proof.
  induction calls as [|c calls IH]; intros w Hsome; [done|].
  simpl. rewrite IH by (by apply getArchiveInfo_keeps_cached).
  destruct (String.eqb c.1 pkgkey) eqn:Hk; [|done].
  apply String.eqb_eq in Hk. unfold downloadsArchive. rewrite Hk.
  destruct Hsome as [b ->]. done.
Qed.

Lemma countCalls_downloads_once pkgkey calls : forall w,
  countCalls downloadsArchive env pkgkey calls w <= 1.
Proof.
  induction calls as [|c calls IH]; intros w; simpl; [lia|].
  destruct (String.eqb c.1 pkgkey && downloadsArchive env c w) eqn:Hfirst.
  - apply andb_true_iff in Hfirst as [Hk Hdl].
    apply String.eqb_eq in Hk. destruct c as [k accept]. simpl in *. subst k.
    rewrite countCalls_downloads_cached; [lia|].
    by apply downloadsArchive_caches.
  - specialize (IH (getArchiveInfo env c.1 c.2 w).2). lia.
Qed.

End FetchFacts.

(** With a registry whose first archive download breaks off, two calls
    for the same pkgkey both go to the network: the first caches nothing,
    and the second is not served from the cache but downloads again. *)
Lemma getArchiveInfo_fetches_again_after_failure :
  let call : Call := ("system-1.2.0", acceptAll) in
  let w1 := run flakyEnv [call] emptyWorld in
  let w2 := run flakyEnv [call; call] emptyWorld in
  (getArchiveInfo flakyEnv "system-1.2.0" acceptAll emptyWorld).1
  = inl (Rejected "socket hang up")
  /\ cacheGet "system-1.2.0.tar.gz" w1 = None
  /\ (getArchiveInfo flakyEnv "system-1.2.0" acceptAll w1).1
     = inr ["system-1.2.0/kibana/dashboard/sample.json"]
  /\ requests w2
     = [ GetResponseStream "http://registry/epr/system/system-1.2.0.tar.gz";
         GetUrl "http://registry/package/system-1.2.0";
         GetResponseStream "http://registry/epr/system/system-1.2.0.tar.gz";
         GetUrl "http://registry/package/system-1.2.0" ]
  /\ countCalls usesNetwork flakyEnv "system-1.2.0" [call; call] emptyWorld = 2.
Proof. repeat split; vm_compute; reflexivity. Qed.

(** C1 (amended). For every pkgkey and every sequence of calls of
    [getArchiveInfo] made one after the other, at most one call downloads
    the archive of that pkgkey; the call that downloads it leaves a buffer
    cached under [<pkgkey>.tar.gz]; once a buffer is cached there, every
    later call for that pkgkey, whatever calls come in between, issues no
    request. A call whose fetch fails caches nothing under that key, and
    a call that finds nothing under that key goes to the network. *)
Theorem archive_downloaded_at_most_once (env : Env) (pkgkey : string) :
  (forall calls w, countCalls downloadsArchive env pkgkey calls w <= 1)
  /\ (forall accept w,
        downloadsArchive env (pkgkey, accept) w = true ->
        is_Some (cacheGet (archiveKey pkgkey)
                   (getArchiveInfo env pkgkey accept w).2))
  /\ (forall w between accept,
        is_Some (cacheGet (archiveKey pkgkey) w) ->
        usesNetwork env (pkgkey, accept) (run env between w) = false)
  /\ (forall accept w e w',
        cacheGet (archiveKey pkgkey) w = None ->
        fetchArchiveBuffer env pkgkey w = (inl e, w') ->
        cacheGet (archiveKey pkgkey) (getArchiveInfo env pkgkey accept w).2
        = None)
  /\ (forall accept w,
        cacheGet (archiveKey pkgkey) w = None ->
        usesNetwork env (pkgkey, accept) w = true).
Proof.
  split; [apply countCalls_downloads_once|].
  split; [apply downloadsArchive_caches|].
  split; [|split].
  - intros w between accept Hsome. unfold usesNetwork. simpl.
    rewrite getArchiveInfo_hit_requests by (by apply run_keeps_cached).
    by rewrite Nat.eqb_refl.
  - intros accept w e w' Hmiss Hfetch.
    rewrite getArchiveInfo_cases, Hmiss, Hfetch. simpl.
    pose proof (fetchArchiveBuffer_cacheGet env pkgkey (archiveKey pkgkey) w)
      as Hsame.
    rewrite Hfetch in Hsame. simpl in Hsame. by rewrite Hsame.
  - intros accept w Hmiss. unfold usesNetwork. simpl.
    pose proof (getArchiveInfo_miss_requests env pkgkey accept w Hmiss) as Hlt.
    apply negb_true_iff, Nat.eqb_neq. lia.
Qed.

Lemma archive_downloaded_at_most_once_witness :
  let call : Call := ("system-1.2.0", acceptAll) in
  let w1 := run scenarioEnv [call] emptyWorld in
  countCalls downloadsArchive scenarioEnv "system-1.2.0" [call; call; call]
    emptyWorld <= 1
  /\ is_Some (cacheGet "system-1.2.0.tar.gz" w1)
  /\ usesNetwork scenarioEnv call (run scenarioEnv [call] w1) = false.
Proof.
  intros call w1.
  destruct (archive_downloaded_at_most_once scenarioEnv "system-1.2.0")
    as (Honce & Hcaches & Hserved & _).
  assert (is_Some (cacheGet "system-1.2.0.tar.gz" w1)) as Hcached.
  { apply (Hcaches acceptAll emptyWorld). reflexivity. }
  split; [apply Honce|]. split; [exact Hcached|].
  apply (Hserved w1 [call] acceptAll). exact Hcached.
Defined.

(** ** When no archive buffer is obtained *)

(** A registry that serves zero bytes: the empty buffer is cached under
    the archive key and handed to the extraction, and the call returns an
    empty list instead of failing. A registry that cannot be reached: the
    call fails with the failure of the request, not with
    [no archive buffer for <key>]. *)
Lemma getArchiveInfo_empty_buffer_is_extracted :
  let fetched := fetchArchiveBuffer emptyArchiveEnv "system-1.2.0" emptyWorld in
  let call := getArchiveInfo emptyArchiveEnv "system-1.2.0" acceptAll emptyWorld in
  fetched.1 = inr (Some [])
  /\ call
     = extractFrom emptyArchiveEnv acceptAll []
         (cacheSet "system-1.2.0.tar.gz" (Some []) fetched.2)
  /\ call.1 = inr []
  /\ cacheGet "system-1.2.0.tar.gz" call.2 = Some []
  /\ (getArchiveInfo unreachableEnv "system-1.2.0" acceptAll emptyWorld).1
     = inl (Rejected "ECONNREFUSED").
Proof. repeat split; vm_compute; reflexivity. Qed.

(** C2 (amended). When the cache holds nothing under the archive key:
    if the fetch fails, [getArchiveInfo] fails with that very failure,
    nothing is walked and the cache is unchanged; if the fetch resolves
    with no buffer at all, [getArchiveInfo] fails with
    [no archive buffer for <pkgkey>.tar.gz] and nothing is walked; if the
    fetch resolves with a buffer, of whatever length, that buffer is
    cached under the archive key and handed to the extraction. *)
Theorem getArchiveInfo_without_buffer (env : Env) (pkgkey : string)
    (accept : ArchiveEntry.t -> bool) (w : World) :
  cacheGet (archiveKey pkgkey) w = None ->
  match fetchArchiveBuffer env pkgkey w with
  | (inl e, w') =>
      getArchiveInfo env pkgkey accept w = (inl e, w')
      /\ cache w' = cache w
  | (inr None, w') =>
      getArchiveInfo env pkgkey accept w
      = (inl (Error ("no archive buffer for " +:+ pkgkey +:+ ".tar.gz")),
         cacheSet (archiveKey pkgkey) None w')
  | (inr (Some b), w') =>
      getArchiveInfo env pkgkey accept w
      = extractFrom env accept b (cacheSet (archiveKey pkgkey) (Some b) w')
  end.
Proof.
  intros Hmiss. rewrite getArchiveInfo_cases, Hmiss.
  pose proof (proj1 (fetchArchiveBuffer_world env pkgkey w)) as Hcache.
  by destruct (fetchArchiveBuffer env pkgkey w) as [[e|[b|]] w'].
Qed.

Lemma getArchiveInfo_without_buffer_witness :
  (getArchiveInfo noBufferEnv "system-1.2.0" acceptAll emptyWorld).1
  = inl (Error "no archive buffer for system-1.2.0.tar.gz").
Proof.
  pose proof (getArchiveInfo_without_buffer noBufferEnv "system-1.2.0"
                acceptAll emptyWorld eq_refl) as H.
  simpl in H. by rewrite H.
Defined.

(** * Further properties of the path parser *)

Lemma split_nonempty (sep : ascii) (s : string) : Js.split sep s <> [].
Proof.
  pose proof (length_split sep s) as Hlen.
  destruct (Js.split sep s); [simpl in Hlen; lia|done].
Qed.

(** The fields shift on destructured segments, as the last step of
    [pathParts] performs it. *)
Lemma destructure4_shape (segments : list string) :
  segments <> [] ->
  exists k,
    segments !! 0 = Some k
    /\ (is_Some (segments !! 3) ->
        is_Some (segments !! 1) /\ is_Some (segments !! 2)).
Proof.
  destruct segments as [|k [|s [|t rest]]]; [done|..]; intros _; exists k;
    (split; [done|]); simpl; intros [? ?]; try done; eauto.
Qed.

(** Every record comes from some non-empty list of segments: those of
    the path, or those of the path without its dataset portion. *)
Lemma pathParts_segments (path : string) :
  exists (l : list string) (d : option string),
    l <> []
    /\ pathParts path
       = match l !! 3 with
         | None =>
             AssetParts.mk (l !! 0) (Some "") (Some "fields") (l !! 2) d path
         | Some f => AssetParts.mk (l !! 0) (l !! 1) (l !! 2) (Some f) d path
         end.
Proof.
  unfold pathParts, destructure4.
  destruct (Js.strictEq (Js.split "/" path !! 1) "dataset").
  - exists (Js.split "/"
              (Js.replace
                 ("dataset/" +:+ Js.toString (Js.split "/" path !! 2) +:+ "/")
                 "" path)),
           (Js.split "/" path !! 2).
    split; [apply split_nonempty|]. by destruct (_ !! 3).
  - exists (Js.split "/" path), None.
    split; [apply split_nonempty|]. by destruct (_ !! 3).
Qed.

(** X1. Whatever the input, the pkgkey, service and type of the record
    are strings, never undefined; only file and dataset can be undefined,
    and file is undefined only together with the empty service and the
    type [fields]. *)
Theorem pathParts_defined_fields (path : string) :
  exists k s t,
    AssetParts.pkgkey (pathParts path) = Some k
    /\ AssetParts.service (pathParts path) = Some s
    /\ AssetParts.type (pathParts path) = Some t
    /\ (is_Some (AssetParts.file (pathParts path))
        \/ (s = "" /\ t = "fields")).
Proof.
  destruct (pathParts_segments path) as (l & d & Hl & ->).
  destruct (destructure4_shape l Hl) as (k & Hk & Hfull).
  rewrite Hk. destruct (l !! 3) as [f|] eqn:Hf.
  - destruct Hfull as [[s Hs] [t Ht]]; [eauto|]. rewrite Hs, Ht.
    exists k, s, t. repeat split. left. eauto.
  - exists k, "", "fields". repeat split. by right.
Qed.

(** X2. Segments after the fourth are ignored: a path of more than four
    segments whose second segment is not [dataset] parses like its first
    four segments, so file is the fourth segment and not the last one. *)
Theorem pathParts_ignores_deeper_segments (a b c d rest : string) :
  Js.count "/" a = 0 -> Js.count "/" b = 0 ->
  Js.count "/" c = 0 -> Js.count "/" d = 0 ->
  b <> "dataset" ->
  let path := a +:+ "/" +:+ b +:+ "/" +:+ c +:+ "/" +:+ d +:+ "/" +:+ rest in
  pathParts path
  = AssetParts.mk (Some a) (Some b) (Some c) (Some d) None path.
Proof.
  intros Ha Hb Hc Hd Hne path. unfold pathParts, path.
  rewrite !(split_segment_sep "/") by done.
  apply String.eqb_neq in Hne. simpl. by rewrite Hne.
Qed.

Lemma pathParts_ignores_deeper_segments_witness :
  pathParts "system-1.2.0/kibana/dashboard/nested/sample.json"
  = AssetParts.mk (Some "system-1.2.0") (Some "kibana") (Some "dashboard")
      (Some "nested") None "system-1.2.0/kibana/dashboard/nested/sample.json".
Proof.
  apply (pathParts_ignores_deeper_segments
           "system-1.2.0" "kibana" "dashboard" "nested" "sample.json");
    (reflexivity || discriminate).
Defined.

(** ** Removing the dataset portion *)

Lemma startsWith_app (p rest : string) : Js.startsWith p (p +:+ rest) = true.
Proof. induction p as [|c p IH]; simpl; [done|]. by rewrite Ascii.eqb_refl. Qed.

Lemma drop_app (p rest : string) : Js.drop (String.length p) (p +:+ rest) = rest.
Proof. induction p as [|c p IH]; simpl; [by destruct rest|done]. Qed.

Lemma startsWith_inv (p s : string) :
  Js.startsWith p s = true -> exists z, s = p +:+ z.
Proof.
  revert s. induction p as [|a p IH]; intros s; simpl; [by exists s|].
  destruct s as [|b s]; [done|].
  intros [Hab Hps]%andb_true_iff. apply Ascii.eqb_eq in Hab as ->.
  destruct (IH s Hps) as [z ->]. by exists z.
Qed.

(** A prefix that ends its first segment where the string ends its own
    has the same first segment. *)
Lemma startsWith_segment (sep : ascii) (b y a x : string) :
  Js.count sep a = 0 -> Js.count sep b = 0 ->
  Js.startsWith (b +:+ String sep y) (a +:+ String sep x) = true ->
  a = b /\ Js.startsWith y x = true.
Proof.
  revert a. induction b as [|c b IH]; intros a Ha Hb.
  - destruct a as [|c' a]; simpl.
    + by rewrite Ascii.eqb_refl.
    + simpl in Ha. destruct (Ascii.eqb c' sep) eqn:E; [lia|].
      rewrite Ascii.eqb_sym, E. done.
  - simpl in Hb. destruct (Ascii.eqb c sep) eqn:Ec; [lia|].
    destruct a as [|c' a]; simpl.
    + rewrite Ec. done.
    + simpl in Ha. destruct (Ascii.eqb c' sep) eqn:Ec'; [lia|].
      intros [Hcc Hrest]%andb_true_iff. apply Ascii.eqb_eq in Hcc as ->.
      destruct (IH a Ha Hb Hrest) as [-> Hyx]. done.
Qed.

Lemma split_head_cons (sep c : ascii) (s : string) :
  Ascii.eqb c sep = false ->
  Js.split sep (String c s) !! 0 = String c <$> (Js.split sep s !! 0).
Proof.
  intros Hc. pose proof (split_nonempty sep s) as Hne.
  cbn [Js.split]. rewrite Hc. by destruct (Js.split sep s).
Qed.

Lemma split_segments_no_sep (sep : ascii) (s : string) :
  Forall (fun seg => Js.count sep seg = 0) (Js.split sep s).
Proof.
  induction s as [|c s IH]; simpl; [by repeat constructor|].
  destruct (Ascii.eqb c sep) eqn:Ec; [by constructor|].
  destruct (Js.split sep s) as [|h t]; [by repeat constructor; simpl; rewrite Ec|].
  apply Forall_cons in IH as [Hh Ht]. constructor; [|done].
  simpl. by rewrite Ec.
Qed.

Lemma append_assoc (a b c : string) : (a +:+ b) +:+ c = a +:+ b +:+ c.
Proof.
  induction a as [|x a IH]; [done|].
  change (String x ((a +:+ b) +:+ c) = String x (a +:+ b +:+ c)).
  by rewrite IH.
Qed.

Lemma replace_unfold (pat rep s : string) :
  Js.replace pat rep s
  = if Js.startsWith pat s then rep +:+ Js.drop (String.length pat) s
    else match s with
         | EmptyString => EmptyString
         | String c r => String c (Js.replace pat rep r)
         end.
Proof. by destruct s. Qed.

(** Removing [dataset/<name>/] from a path that has it after its first
    segment leaves the first segment and what follows the portion, also
    when the pattern first occurs astride the first slash. *)
Lemma replace_dataset_portion (pkg ds rest : string) :
  Js.count "/" pkg = 0 -> Js.count "/" ds = 0 ->
  Js.replace ("dataset/" +:+ ds +:+ "/") ""
    (pkg +:+ "/" +:+ ("dataset/" +:+ ds +:+ "/") +:+ rest)
  = pkg +:+ "/" +:+ rest.
Proof.
  intros Hpkg Hds. induction pkg as [|c pkg IH].
  - change ("" +:+ "/" +:+ ("dataset/" +:+ ds +:+ "/") +:+ rest)
      with (String "/" (("dataset/" +:+ ds +:+ "/") +:+ rest)).
    rewrite replace_unfold.
    change (Js.startsWith _ (String "/" _)) with false. cbv iota.
    rewrite replace_unfold, startsWith_app, drop_app. done.
  - simpl in Hpkg. destruct (Ascii.eqb c "/") eqn:Ec; [lia|].
    change (String c pkg +:+ ?x) with (String c (pkg +:+ x)).
    rewrite replace_unfold.
    destruct (Js.startsWith _ (String c _)) eqn:Hstart.
    + change ("dataset/" +:+ ds +:+ "/")
        with ("dataset" +:+ String "/" (ds +:+ String "/" "")) in Hstart at 1.
      change (String c (pkg +:+ "/" +:+ ("dataset/" +:+ ds +:+ "/") +:+ rest))
        with (String c pkg
              +:+ String "/"
                    ("dataset" +:+ String "/" ((ds +:+ "/") +:+ rest)))
        in Hstart.
      apply startsWith_segment in Hstart as [Hk Hstart];
        [|simpl; by rewrite Ec|done].
      rewrite append_assoc in Hstart.
      apply startsWith_segment in Hstart as [Hd _]; [|done..].
      injection Hk as -> ->. subst ds. reflexivity.
    + f_equal. by apply IH.
Qed.

(** X3. A dataset-scoped path parses like the same path outside the
    dataset: for a package segment and a dataset name without slashes, the
    record of [pkg/dataset/<name>/rest] has the pkgkey, service, type and
    file of [pkg/rest], the dataset name as dataset and the whole path as
    path, provided [rest] does not itself start with a [dataset]
    segment. *)
Theorem pathParts_dataset_scoped (pkg ds rest : string) :
  Js.count "/" pkg = 0 -> Js.count "/" ds = 0 ->
  Js.split "/" rest !! 0 <> Some "dataset" ->
  let path := pkg +:+ "/dataset/" +:+ ds +:+ "/" +:+ rest in
  let plain := pathParts (pkg +:+ "/" +:+ rest) in
  pathParts path
  = AssetParts.mk (AssetParts.pkgkey plain) (AssetParts.service plain)
      (AssetParts.type plain) (AssetParts.file plain) (Some ds) path.
Proof.
  intros Hpkg Hds Hrest path plain.
  assert (Js.split "/" path = pkg :: "dataset" :: ds :: Js.split "/" rest)
    as Hsplit.
  { unfold path.
    change (pkg +:+ "/dataset/" +:+ ds +:+ "/" +:+ rest)
      with (pkg +:+ "/" +:+ "dataset" +:+ "/" +:+ ds +:+ "/" +:+ rest).
    by rewrite !(split_segment_sep "/") by done. }
  assert (Js.replace ("dataset/" +:+ ds +:+ "/") "" path = pkg +:+ "/" +:+ rest)
    as Hreplace.
  { rewrite <- (replace_dataset_portion pkg ds rest) by done.
    f_equal. unfold path.
    change (pkg +:+ "/" +:+ ("dataset/" +:+ ds +:+ "/") +:+ rest)
      with (pkg +:+ "/" +:+ "dataset/" +:+ ((ds +:+ "/") +:+ rest)).
    by rewrite append_assoc. }
  assert (Js.split "/" (pkg +:+ "/" +:+ rest) = pkg :: Js.split "/" rest)
    as Hplain by (by rewrite (split_segment_sep "/")).
  unfold plain, pathParts, destructure4.
  rewrite Hsplit, Hplain.
  change ((pkg :: "dataset" :: ds :: Js.split "/" rest) !! 1)
    with (Some "dataset").
  change ((pkg :: "dataset" :: ds :: Js.split "/" rest) !! 2) with (Some ds).
  change (Js.strictEq (Some "dataset") "dataset") with true. cbv iota.
  change (Js.toString (Some ds)) with ds. rewrite Hreplace, Hplain.
  change ((pkg :: Js.split "/" rest) !! 1) with (Js.split "/" rest !! 0).
  destruct (Js.split "/" rest !! 0) as [s|] eqn:Hs.
  - assert (Js.strictEq (Some s) "dataset" = false) as ->.
    { apply String.eqb_neq. congruence. }
    by destruct (_ !! 3).
  - change (Js.strictEq None "dataset") with false. by destruct (_ !! 3).
Qed.

Lemma pathParts_dataset_scoped_witness :
  pathParts "pkg-1.0/dataset/ds1/kibana/dashboard/overview.json"
  = AssetParts.mk (Some "pkg-1.0") (Some "kibana") (Some "dashboard")
      (Some "overview.json") (Some "ds1")
      "pkg-1.0/dataset/ds1/kibana/dashboard/overview.json".
Proof.
  apply (pathParts_dataset_scoped "pkg-1.0" "ds1" "kibana/dashboard/overview.json");
    (reflexivity || discriminate).
Defined.

Lemma split_cons_inv (sep : ascii) (s : string) : forall k l,
  Js.split sep s = k :: l -> l <> [] ->
  exists y, s = k +:+ String sep y /\ Js.split sep y = l /\ Js.count sep k = 0.
Proof.
  induction s as [|c s IH]; intros k l; simpl.
  - intros [= <- <-]. done.
  - destruct (Ascii.eqb c sep) eqn:Ec.
    + apply Ascii.eqb_eq in Ec as ->. intros [= <- <-] _. by exists s.
    + destruct (Js.split sep s) as [|h t] eqn:Hs; [by intros [= <- <-]|].
      intros [= <- <-] Hl. destruct (IH h t eq_refl Hl) as (y & -> & Hy & Hh).
      exists y. repeat split; [done|]. simpl. by rewrite Ec.
Qed.

Lemma toString_segment_no_sep (y : string) (i : nat) :
  Js.count "/" (Js.toString (Js.split "/" y !! i)) = 0.
Proof.
  destruct (Js.split "/" y !! i) as [seg|] eqn:Hseg; [|done].
  pose proof (split_segments_no_sep "/" y) as Hall.
  rewrite Forall_lookup in Hall. by apply (Hall i).
Qed.

(** The first segment survives the removal of the dataset portion. *)
Lemma dataset_replace_head (y : string) (k : string) :
  Js.count "/" k = 0 ->
  Js.split "/" y !! 0 = Some "dataset" ->
  Js.split "/"
    (Js.replace ("dataset/" +:+ Js.toString (Js.split "/" y !! 1) +:+ "/") ""
       (k +:+ String "/" y)) !! 0
  = Some k.
Proof.
  intros Hk Hmarker.
  pose proof (toString_segment_no_sep y 1) as HX.
  remember (Js.toString (Js.split "/" y !! 1)) as X eqn:EX.
  induction k as [|c k IH].
  - change ("" +:+ String "/" y) with (String "/" y). rewrite replace_unfold.
    change (Js.startsWith _ (String "/" y)) with false. cbv iota.
    reflexivity.
  - simpl in Hk. destruct (Ascii.eqb c "/") eqn:Ec; [lia|].
    change (String c k +:+ String "/" y) with (String c (k +:+ String "/" y)).
    rewrite replace_unfold.
    destruct (Js.startsWith _ (String c _)) eqn:Hstart.
    + change ("dataset/" +:+ X +:+ "/")
        with ("dataset" +:+ String "/" (X +:+ String "/" "")) in Hstart.
      change (String c (k +:+ String "/" y))
        with (String c k +:+ String "/" y) in Hstart.
      apply startsWith_segment in Hstart as [Hck Hstart];
        [|simpl; by rewrite Ec|done].
      apply startsWith_inv in Hstart as [z Hy].
      rewrite append_assoc in Hy.
      assert (Js.split "/" y = X :: Js.split "/" z) as Hsplit
        by (rewrite Hy; by apply (split_segment_sep "/")).
      rewrite Hsplit in Hmarker, EX. injection Hmarker as HXd.
      change ((X :: Js.split "/" z) !! 1) with (Js.split "/" z !! 0) in EX.
      pose proof (split_nonempty "/" z) as Hz.
      destruct (Js.split "/" z) as [|t ts] eqn:Hzs; [done|].
      simpl in EX. subst t. injection Hck as -> ->. subst y X.
      change ("" +:+ Js.drop _ _) with z. by rewrite Hzs.
    + rewrite split_head_cons by done. by rewrite IH.
Qed.

(** X4. The pkgkey of the record is the first segment of the path, for
    every path: the removal of the dataset portion never reaches it. *)
Theorem pathParts_pkgkey_first_segment (path : string) :
  AssetParts.pkgkey (pathParts path) = Js.split "/" path !! 0.
Proof.
  unfold pathParts, destructure4.
  destruct (Js.strictEq (Js.split "/" path !! 1) "dataset") eqn:Hmarker.
  - destruct (Js.split "/" path) as [|k l] eqn:Hsplit;
      [by apply split_nonempty in Hsplit|].
    change ((k :: l) !! 1) with (l !! 0) in *.
    change ((k :: l) !! 2) with (l !! 1).
    destruct (l !! 0) as [s|] eqn:Hs; [|done].
    apply String.eqb_eq in Hmarker as ->.
    assert (l <> []) as Hl by (by destruct l).
    destruct (split_cons_inv "/" path k l Hsplit Hl) as (y & -> & Hy & Hk).
    rewrite <- Hy in Hs |- *.
    pose proof (dataset_replace_head y k Hk Hs) as Hhead.
    destruct (_ !! 3); simpl; exact Hhead.
  - by destruct (_ !! 3).
Qed.

(** * Further properties of package keys *)

Lemma count_app (c : ascii) (a b : string) :
  Js.count c (a +:+ b) = Js.count c a + Js.count c b.
Proof.
  induction a as [|x a IH]; [done|].
  change (String x a +:+ b) with (String x (a +:+ b)). simpl. rewrite IH. lia.
Qed.

Lemma append_sep_inj (sep : ascii) (a b v v' : string) :
  Js.count sep v = 0 -> Js.count sep v' = 0 ->
  a +:+ String sep v = b +:+ String sep v' ->
  a = b /\ v = v'.
Proof.
  intros Hv Hv'. revert b. induction a as [|x a IH]; intros [|y b].
  - by intros [= ->].
  - change (String y b +:+ String sep v') with (String y (b +:+ String sep v')).
    intros [= <- ->]. rewrite count_app in Hv. simpl in Hv.
    rewrite Ascii.eqb_refl in Hv. lia.
  - change (String x a +:+ String sep v) with (String x (a +:+ String sep v)).
    intros [= -> <-]. rewrite count_app in Hv'. simpl in Hv'.
    rewrite Ascii.eqb_refl in Hv'. lia.
  - change (String x a +:+ String sep v) with (String x (a +:+ String sep v)).
    change (String y b +:+ String sep v') with (String y (b +:+ String sep v')).
    intros [= -> Heq]. by destruct (IH b Heq) as [-> ->].
Qed.

(** X5. The key made by [pkgToPkgKey] determines the name and the
    version of the package as long as the versions hold no hyphen. *)
Theorem pkgToPkgKey_determines_package (p q : RegistryPackage.t) :
  Js.count "-" (RegistryPackage.version p) = 0 ->
  Js.count "-" (RegistryPackage.version q) = 0 ->
  pkgToPkgKey p = pkgToPkgKey q ->
  RegistryPackage.name p = RegistryPackage.name q
  /\ RegistryPackage.version p = RegistryPackage.version q.
Proof. intros Hp Hq. by apply append_sep_inj. Qed.

Lemma pkgToPkgKey_determines_package_witness :
  RegistryPackage.name systemPackage
  = RegistryPackage.name (RegistryPackage.mk "system" "1.2.0" None)
  /\ RegistryPackage.version systemPackage
     = RegistryPackage.version (RegistryPackage.mk "system" "1.2.0" None).
Proof.
  apply (pkgToPkgKey_determines_package systemPackage
           (RegistryPackage.mk "system" "1.2.0" None)); reflexivity.
Defined.

(** With a hyphen in a version, two different packages share a key. *)
Example pkgToPkgKey_shared_key :
  pkgToPkgKey (RegistryPackage.mk "nginx" "1.0-beta" None)
  = pkgToPkgKey (RegistryPackage.mk "nginx-1.0" "beta" None).
Proof. reflexivity. Qed.

(** * Further properties of the grouping *)

Section GroupingMore.
Variable K : list string.

Lemma pathParts_service_type (path : string) :
  AssetParts.service (pathParts path)
  = Some (Js.toString (AssetParts.service (pathParts path)))
  /\ AssetParts.type (pathParts path)
     = Some (Js.toString (AssetParts.type (pathParts path))).
Proof.
  destruct (pathParts_segments path) as (l & d & Hl & ->).
  destruct (destructure4_shape l Hl) as (k & Hk & Hfull).
  destruct (l !! 3) as [f|] eqn:Hf; [|done].
  destruct Hfull as [[s Hs] [t Ht]]; [eauto|]. by rewrite Hs, Ht.
Qed.

(** The keys the callback leaves in the accumulator. *)
Lemma groupStep_plain_keys map path :
  plainNames path ->
  exists map',
    groupStep K map path = Returned map'
    /\ (forall s, is_Some (map' !! s)
                  <-> is_Some (map !! s) \/ exists t, placedUnder K s t path)
    /\ (forall s t, is_Some (map' !! s ≫= (.!! t))
                    <-> is_Some (map !! s ≫= (.!! t))
                        \/ placedUnder K s t path).
Proof.
  intros [Hservice Htype]. unfold groupStep, inKibanaAssetType.
  fold (groupedParts path). rewrite Hservice, Htype, orb_false_r.
  case_bool_decide as Hin.
  - eexists. split; [done|]. split.
    + intros s. destruct (decide (Js.toString
                (AssetParts.service (groupedParts path)) = s)) as [<-|Hs].
      * rewrite lookup_insert_eq. split; [|eauto].
        intros _. right. eexists. by repeat split.
      * rewrite lookup_insert_ne by done. split; [eauto|].
        intros [?|(t & Hp & _)]; [done|]. by destruct Hs.
    + intros s t. destruct (decide (Js.toString
                (AssetParts.service (groupedParts path)) = s)) as [<-|Hs].
      * rewrite lookup_insert_eq. simpl.
        destruct (decide (Js.toString
                (AssetParts.type (groupedParts path)) = t)) as [<-|Ht].
        -- rewrite lookup_insert_eq. split; [|eauto].
           intros _. right. by repeat split.
        -- rewrite lookup_insert_ne by done.
           destruct (map !! _); simpl;
             (split; [eauto|]); (intros [?|(_ & Hp & _)]; [done|]);
             by destruct Ht.
      * rewrite lookup_insert_ne by done. split; [eauto|].
        intros [?|(Hp & _)]; [done|]. by destruct Hs.
  - exists map. split; [done|]. split.
    + intros s. split; [eauto|]. intros [?|(t & _ & <- & ?)]; done.
    + intros s t. split; [eauto|]. intros [?|(_ & <- & ?)]; done.
Qed.

Lemma reduce_plain_keys paths : forall map,
  Forall plainNames paths ->
  exists map',
    reduce K paths map = Returned map'
    /\ (forall s, is_Some (map' !! s)
                  <-> is_Some (map !! s)
                      \/ exists p t, p ∈ paths /\ placedUnder K s t p)
    /\ (forall s t, is_Some (map' !! s ≫= (.!! t))
                    <-> is_Some (map !! s ≫= (.!! t))
                        \/ exists p, p ∈ paths /\ placedUnder K s t p).
Proof.
  induction paths as [|path rest IH]; intros map Hplain.
  - exists map. split; [done|].
    split; intros; (split; [eauto|]).
    + intros [?|(p & t & Hp & _)]; [done|]. by apply elem_of_nil in Hp.
    + intros [?|(p & Hp & _)]; [done|]. by apply elem_of_nil in Hp.
  - apply Forall_cons in Hplain as [Hpath Hrest].
    destruct (groupStep_plain_keys map path Hpath) as (map1 & Hstep & Hs1 & Ht1).
    destruct (IH map1 Hrest) as (map' & Hred & Hs' & Ht').
    exists map'. simpl. rewrite Hstep. split; [done|]. split.
    + intros s. rewrite Hs', Hs1. split.
      * intros [[?|(t & Hp)]|(p & t & Hin & Hp)]; [by left|right..].
        -- exists path, t. split; [apply elem_of_cons; by left|done].
        -- exists p, t. split; [apply elem_of_cons; by right|done].
      * intros [?|(p & t & [->|Hin]%elem_of_cons & Hp)]; eauto 6.
    + intros s t. rewrite Ht', Ht1. split.
      * intros [[?|Hp]|(p & Hin & Hp)]; [by left|right..].
        -- exists path. split; [apply elem_of_cons; by left|done].
        -- exists p. split; [apply elem_of_cons; by right|done].
      * intros [?|(p & [->|Hin]%elem_of_cons & Hp)]; eauto 6.
Qed.

End GroupingMore.

(** X6. For paths whose parsed service and type do not name properties
    of [Object.prototype], the [kibana] group of the result is undefined
    exactly when no path is placed under [kibana], and it has a key for a
    type exactly when some path is placed under that type: no key maps to
    an empty array. *)
Theorem groupPathsByService_kibana_keys (K : list string) (paths : list string) :
  Forall plainNames paths ->
  exists r,
    groupPathsByService K paths = Returned r
    /\ (is_Some (kibana r)
        <-> exists p t, p ∈ paths /\ placedUnder K "kibana" t p)
    /\ (forall t, is_Some (kibana r ≫= (.!! t))
                  <-> exists p, p ∈ paths /\ placedUnder K "kibana" t p)
    /\ (forall t assets, kibana r ≫= (.!! t) = Some assets -> assets <> []).
Proof.
  intros Hplain.
  destruct (reduce_plain_keys K paths ∅ Hplain) as (map' & Hred & Hs & Ht).
  destruct (reduce_plain K paths ∅ Hplain) as (map'' & Hred' & Hat).
  rewrite Hred in Hred'. injection Hred' as <-.
  unfold groupPathsByService. rewrite Hred. eexists. split; [done|]. simpl.
  split; [|split].
  - rewrite Hs, lookup_empty. split; [|eauto].
    intros [[? [=]]|?]; done.
  - intros t. rewrite Ht, lookup_empty. simpl. split; [|eauto].
    intros [[? [=]]|?]; done.
  - intros t assets Hassets.
    assert (is_Some (map' !! "kibana" ≫= (.!! t))) as Hsome by eauto.
    apply Ht in Hsome as [[? Hempty]|(p & Hin & Hp)];
      [by rewrite lookup_empty in Hempty|].
    specialize (Hat "kibana" t). unfold assetsAt in Hat.
    rewrite Hassets, lookup_empty in Hat. simpl in Hat. subst assets.
    intros Hnil%fmap_nil_inv.
    assert (p ∈ filter (placedUnder K "kibana" t) paths) as Hp'
      by (by apply list_elem_of_filter).
    rewrite Hnil in Hp'. by apply elem_of_nil in Hp'.
Qed.

Lemma groupPathsByService_kibana_keys_witness :
  exists r,
    groupPathsByService kibanaKeys
      ["/package/system-1.2.0/elasticsearch/ingest-pipeline/default.json"]
    = Returned r
    /\ ~ is_Some (kibana r).
Proof.
  destruct (groupPathsByService_kibana_keys kibanaKeys
              ["/package/system-1.2.0/elasticsearch/ingest-pipeline/default.json"])
    as (r & Hr & Hkibana & _).
  - repeat constructor; vm_compute; reflexivity.
  - exists r. split; [exact Hr|]. rewrite Hkibana.
    intros (p & t & Hin & Hp). apply list_elem_of_singleton in Hin as ->.
    destruct Hp as (Hservice & _). vm_compute in Hservice. discriminate.
Defined.

Lemma reduce_app (K : list string) (paths1 paths2 : list string) : forall map,
  reduce K (paths1 ++ paths2) map
  = match reduce K paths1 map with
    | Returned map1 => reduce K paths2 map1
    | TypeError => TypeError
    | OnBuiltin => OnBuiltin
    end.
Proof.
  induction paths1 as [|p paths1 IH]; intros map; simpl; [done|].
  by destruct (groupStep K map p).
Qed.

(** X7. For paths whose parsed service and type do not name properties
    of [Object.prototype], every asset filed under a type in the [kibana]
    group has [kibana] as its service and that type as its type, the type
    is a key of the enum, and the asset is the parse of one of the input
    paths without its [/package/] prefix. *)
Theorem groupPathsByService_filed_consistently (K : list string)
    (paths : list string) (r : AssetsGroupedByServiceByType)
    (type : string) (asset : AssetParts.t) :
  Forall plainNames paths ->
  groupPathsByService K paths = Returned r ->
  asset ∈ kibanaAssets r type ->
  AssetParts.service asset = Some "kibana"
  /\ AssetParts.type asset = Some type
  /\ type ∈ K
  /\ exists p, p ∈ paths
               /\ asset = pathParts (Js.stripPrefix "/package/" p).
Proof.
  intros Hplain Hr Hin.
  destruct (reduce_plain K paths ∅ Hplain) as (map' & Hred & Hat).
  unfold groupPathsByService in Hr. rewrite Hred in Hr. injection Hr as <-.
  unfold kibanaAssets in Hin. simpl in Hin.
  specialize (Hat "kibana" type). unfold assetsAt in Hat.
  rewrite lookup_empty in Hat. simpl in Hat. rewrite Hat in Hin.
  apply list_elem_of_fmap in Hin as (p & -> & Hp).
  apply list_elem_of_filter in Hp as [(Hservice & Htype & HK) Hp].
  destruct (pathParts_service_type (Js.stripPrefix "/package/" p))
    as [Hs Ht].
  unfold groupedParts in *. rewrite Hs, Ht, Hservice, Htype.
  repeat split; [done|]. by exists p.
Qed.

Lemma groupPathsByService_filed_consistently_witness :
  match groupPathsByService kibanaKeys mixedPaths with
  | Returned r =>
      Forall (fun asset => AssetParts.service asset = Some "kibana"
                           /\ AssetParts.type asset = Some "dashboard")
             (kibanaAssets r "dashboard")
      /\ length (kibanaAssets r "dashboard") = 2
  | _ => False
  end.
Proof.
  destruct (groupPathsByService kibanaKeys mixedPaths) as [r| |] eqn:Hr;
    [|vm_compute in Hr; discriminate..].
  split.
  - apply Forall_forall. intros asset Hin.
    destruct (groupPathsByService_filed_consistently kibanaKeys mixedPaths r
                "dashboard" asset)
      as (Hs & Ht & _); [|exact Hr|exact Hin|by split].
    repeat constructor; vm_compute; reflexivity.
  - vm_compute in Hr. injection Hr as <-. reflexivity.
Defined.

(** X8. A parsed type that names a property of [Object.prototype] makes
    the call throw a [TypeError]: when the paths before it are free of
    such names and its own service is, the [in] test lets the path
    through and the [push] is made on the inherited value. The paths
    after it are never looked at. *)
Theorem groupPathsByService_inherited_type_throws (K : list string)
    (before after : list string) (path : string) :
  Forall plainNames before ->
  Js.inherited (Js.toString (AssetParts.service (groupedParts path))) = false ->
  Js.inherited (Js.toString (AssetParts.type (groupedParts path))) = true ->
  groupPathsByService K (before ++ path :: after) = TypeError.
Proof.
  intros Hplain Hservice Htype.
  destruct (reduce_plain K before ∅ Hplain) as (map' & Hred & _).
  unfold groupPathsByService. rewrite reduce_app, Hred. simpl.
  unfold groupStep, inKibanaAssetType. fold (groupedParts path).
  by rewrite Hservice, Htype, orb_true_r.
Qed.

Lemma groupPathsByService_inherited_type_throws_witness :
  groupPathsByService kibanaKeys
    (mixedPaths ++ "/package/system-1.2.0/kibana/toString/x.json" :: mixedPaths)
  = TypeError.
Proof.
  apply groupPathsByService_inherited_type_throws.
  - repeat constructor; vm_compute; reflexivity.
  - reflexivity.
  - reflexivity.
Defined.

(** X9. The [/package/] prefix is optional: prefixing every path of a
    list with it, where none has it already, does not change what the
    call returns. *)
Theorem groupPathsByService_prefix_optional (K : list string)
    (paths : list string) :
  Forall (fun p => Js.startsWith "/package/" p = false) paths ->
  groupPathsByService K ((fun p => "/package/" +:+ p) <$> paths)
  = groupPathsByService K paths.
Proof.
  intros Hnone. unfold groupPathsByService.
  assert (forall map,
            reduce K ((fun p => "/package/" +:+ p) <$> paths) map = reduce K paths map)
    as ->; [|done].
  induction paths as [|p paths IH]; intros map; [done|].
  apply Forall_cons in Hnone as [Hp Hnone].
  rewrite fmap_cons. cbn [reduce].
  assert (groupStep K map ("/package/" +:+ p) = groupStep K map p) as ->.
  { unfold groupStep, Js.stripPrefix.
    by rewrite startsWith_app, drop_app, Hp. }
  destruct (groupStep K map p); [by apply IH|done..].
Qed.

Lemma groupPathsByService_prefix_optional_witness :
  groupPathsByService kibanaKeys
    ["/package/system-1.2.0/kibana/dashboard/sample.json";
     "/package/system-1.2.0/kibana/search/errors.json"]
  = groupPathsByService kibanaKeys
      ["system-1.2.0/kibana/dashboard/sample.json";
       "system-1.2.0/kibana/search/errors.json"].
Proof.
  apply (groupPathsByService_prefix_optional kibanaKeys
           ["system-1.2.0/kibana/dashboard/sample.json";
            "system-1.2.0/kibana/search/errors.json"]).
  repeat constructor.
Defined.

(** * Further properties of the archive functions *)

Lemma pathParts_short_file (path : string) :
  Js.count "/" path < 2 -> AssetParts.file (pathParts path) = None.
Proof.
  intros Hlt.
  pose proof (length_split "/" path) as Hlen.
  destruct (Js.split "/" path) as [|k [|s [|t rest]]] eqn:Hsplit;
    simpl in Hlen; try lia.
  - unfold pathParts. rewrite Hsplit. reflexivity.
  - unfold pathParts. rewrite Hsplit. simpl.
    destruct (String.eqb s "dataset"); [|done].
    rewrite (replace_absent "/") by (simpl; lia).
    rewrite Hsplit. reflexivity.
Qed.

Lemma reported_paths_have_file (accept : ArchiveEntry.t -> bool)
    (entries : list ArchiveEntry.t) (p : string) :
  p ∈ (ArchiveEntry.path <$> filter (fun e => reportedBySpec accept e) entries) ->
  Js.truthy (AssetParts.file (pathParts p)) = true.
Proof.
  intros (e & -> & [Hrep _]%list_elem_of_filter)%list_elem_of_fmap.
  by apply Is_true_true, reportedBySpec_spec in Hrep as (_ & Ht & _).
Qed.

Lemma length_append (a c : string) :
  String.length (a +:+ c) = String.length a + String.length c.
Proof.
  induction a as [|x a IH]; [done|].
  change (String x a +:+ c) with (String x (a +:+ c)). simpl. by rewrite IH.
Qed.

Lemma append_inj_r (a b c : string) : a +:+ c = b +:+ c -> a = b.
Proof.
  revert b. induction a as [|x a IH]; intros [|y b] Heq; [done|..].
  - apply (f_equal String.length) in Heq.
    change ("" +:+ c) with c in Heq.
    change (String y b +:+ c) with (String y (b +:+ c)) in Heq.
    simpl in Heq. rewrite length_append in Heq. lia.
  - apply (f_equal String.length) in Heq.
    change ("" +:+ c) with c in Heq.
    change (String x a +:+ c) with (String x (a +:+ c)) in Heq.
    simpl in Heq. rewrite length_append in Heq. lia.
  - change (String x a +:+ c) with (String x (a +:+ c)) in Heq.
    change (String y b +:+ c) with (String y (b +:+ c)) in Heq.
    injection Heq as -> Heq. f_equal. by apply IH.
Qed.

Section ArchiveMore.
Variable env : Env.

(** X10. On a cache miss the package info is requested first, at
    [<registryUrl>/package/<pkgkey>]. If that request fails, the call
    fails with its failure, the archive is never requested and the cache
    is left as it was; otherwise the archive is requested next, at
    [<registryUrl><download>], and no other request is made, whatever the
    download and the walk then do. *)
Theorem getArchiveInfo_requests_on_miss (pkgkey : string)
    (accept : ArchiveEntry.t -> bool) (w : World) :
  cacheGet (archiveKey pkgkey) w = None ->
  let base := Js.toString (registryUrl env) in
  let info := base +:+ "/package/" +:+ pkgkey in
  match fetchUrlJson env (requests w) info with
  | inl e =>
      getArchiveInfo env pkgkey accept w
      = (inl e, {| cache := cache w; requests := GetUrl info :: requests w |})
  | inr pkg =>
      requests (getArchiveInfo env pkgkey accept w).2
      = GetResponseStream
          (base +:+ Js.toString (RegistryPackage.download pkg))
        :: GetUrl info :: requests w
  end.
Proof.
  intros Hmiss base info. rewrite getArchiveInfo_cases, Hmiss.
  unfold fetchArchiveBuffer, fetchInfo, bind, request. fold base. fold info.
  destruct (fetchUrlJson env (requests w) info) as [e|pkg]; [done|].
  simpl. destruct (getResponseBuffer env _ _) as [e|[b|]]; simpl; try done.
  by rewrite extractFrom_requests.
Qed.

(** X12. A call writes the cache only under the archive key of its
    pkgkey and under paths with a non-empty parsed file: every other key
    keeps its entry. In particular the cached archive of another package,
    whose pkgkey holds no slash, is left alone. *)
Theorem getArchiveInfo_frame (pkgkey : string)
    (accept : ArchiveEntry.t -> bool) (w : World) :
  (forall key,
     key <> archiveKey pkgkey ->
     Js.truthy (AssetParts.file (pathParts key)) = false ->
     cacheGet key (getArchiveInfo env pkgkey accept w).2 = cacheGet key w)
  /\ (forall other,
        other <> pkgkey -> Js.count "/" other = 0 ->
        cacheGet (archiveKey other) (getArchiveInfo env pkgkey accept w).2
        = cacheGet (archiveKey other) w).
Proof.
  assert (forall key,
            key <> archiveKey pkgkey ->
            Js.truthy (AssetParts.file (pathParts key)) = false ->
            cacheGet key (getArchiveInfo env pkgkey accept w).2
            = cacheGet key w) as Hframe.
  { intros key Hkey Hfile.
    assert (forall archive w1,
              cacheGet key (extractFrom env accept archive w1).2
              = cacheGet key w1) as Hwalk.
    { intros archive w1. rewrite extractFrom_walk. simpl.
      apply cacheEntries_other. intros Hin.
      apply reported_paths_have_file in Hin. congruence. }
    rewrite getArchiveInfo_cases.
    destruct (cacheGet (archiveKey pkgkey) w) as [b|]; [apply Hwalk|].
    pose proof (fetchArchiveBuffer_cacheGet env pkgkey key w) as Hsame.
    destruct (fetchArchiveBuffer env pkgkey w) as [[e|[b|]] w']; simpl in *.
    - done.
    - rewrite Hwalk, cacheGet_cacheSet. by rewrite decide_False.
    - rewrite cacheGet_cacheSet. by rewrite decide_False. }
  split; [exact Hframe|].
  intros other Hother Hslash. apply Hframe.
  - unfold archiveKey. intros Heq%append_inj_r. by apply Hother.
  - rewrite pathParts_short_file; [done|].
    unfold archiveKey. rewrite count_app, Hslash. simpl. lia.
Qed.

End ArchiveMore.

Lemma getArchiveInfo_requests_on_miss_witness :
  requests (getArchiveInfo scenarioEnv "system-1.2.0" acceptAll emptyWorld).2
  = [ GetResponseStream "http://registry/epr/system/system-1.2.0.tar.gz";
      GetUrl "http://registry/package/system-1.2.0" ].
Proof.
  exact (getArchiveInfo_requests_on_miss scenarioEnv "system-1.2.0" acceptAll
           emptyWorld eq_refl).
Defined.

Lemma getArchiveInfo_frame_witness :
  let w := cacheSet "nginx-1.0.tar.gz" (Some [x1f; x8b]) emptyWorld in
  cacheGet "nginx-1.0.tar.gz"
    (getArchiveInfo scenarioEnv "system-1.2.0" acceptAll w).2
  = Some [x1f; x8b].
Proof.
  intros w.
  assert ("nginx-1.0" <> "system-1.2.0") as Hother by discriminate.
  exact (proj2 (getArchiveInfo_frame scenarioEnv "system-1.2.0" acceptAll w)
           "nginx-1.0" Hother eq_refl).
Defined.

Section ArchiveRepeat.
Variable env : Env.

Lemma getArchiveInfo_result pkgkey (accept : ArchiveEntry.t -> bool) w paths :
  (getArchiveInfo env pkgkey accept w).1 = inr paths ->
  exists archive w1 entries,
    getOrFetchArchiveBuffer env pkgkey w = (inr archive, w1)
    /\ tarEntries env archive = (entries, None)
    /\ paths = ArchiveEntry.path
               <$> filter (fun e => reportedBySpec accept e) entries.
Proof.
  destruct (getOrFetchArchiveBuffer env pkgkey w) as [[e|archive] w1] eqn:Hget.
  - by rewrite (getArchiveInfo_failed_lookup env pkgkey accept w e w1).
  - destruct (tarEntries env archive) as [entries failure] eqn:Hwalk.
    rewrite (getArchiveInfo_extracted env pkgkey accept w archive w1 entries
               failure) by done.
    simpl. destruct failure; [done|]. intros [= <-]. by exists archive, w1, entries.
Qed.

Lemma getOrFetchArchiveBuffer_caches pkgkey w archive w1 :
  getOrFetchArchiveBuffer env pkgkey w = (inr archive, w1) ->
  cacheGet (archiveKey pkgkey) w1 = Some archive.
Proof.
  destruct (cacheGet (archiveKey pkgkey) w) as [b|] eqn:Hcache.
  - rewrite (getOrFetchArchiveBuffer_hit env pkgkey w b) by done.
    by intros [= <- <-].
  - rewrite getOrFetchArchiveBuffer_miss by done.
    destruct (fetchArchiveBuffer env pkgkey w) as [[e|[b|]] w']; try done.
    intros [= <- <-]. rewrite cacheGet_cacheSet. by rewrite decide_True.
Qed.

Lemma archiveKey_not_reported pkgkey (accept : ArchiveEntry.t -> bool)
    (entries : list ArchiveEntry.t) :
  Js.count "/" pkgkey = 0 ->
  archiveKey pkgkey
  ∉ (ArchiveEntry.path <$> filter (fun e => reportedBySpec accept e) entries).
Proof.
  intros Hslash Hin. apply reported_paths_have_file in Hin.
  rewrite pathParts_short_file in Hin; [done|].
  unfold archiveKey. rewrite count_app, Hslash. simpl. lia.
Qed.

Lemma cacheEntries_lookup key es : forall w,
  cache (cacheEntries es w) !! key
  = match lastWrite key es with
    | Some v => Some v
    | None => cache w !! key
    end.
Proof.
  induction es as [|e es IH]; intros w; [done|].
  change (cacheEntries (e :: es) w)
    with (cacheEntries es
            (cacheSet (ArchiveEntry.path e) (ArchiveEntry.buffer e) w)).
  rewrite IH. simpl. destruct (lastWrite key es); [done|].
  rewrite lookup_insert. by case_decide.
Qed.

Lemma cacheEntries_twice es w :
  cacheEntries es (cacheEntries es w) = cacheEntries es w.
Proof.
  assert (cache (cacheEntries es (cacheEntries es w))
          = cache (cacheEntries es w)) as Hcache.
  { apply map_eq. intros key. rewrite !cacheEntries_lookup.
    by destruct (lastWrite key es). }
  pose proof (cacheEntries_requests es (cacheEntries es w)) as Hrequests.
  destruct (cacheEntries es (cacheEntries es w)), (cacheEntries es w).
  simpl in *. by subst.
Qed.

(** X11. With a registry that always answers, the claim of the cache
    holds for requests too: across any sequence of calls, at most one call
    for a pkgkey issues any request. *)
Theorem reliable_registry_asked_once (pkgkey : string) (calls : list Call)
    (w : World) :
  reliable env ->
  countCalls usesNetwork env pkgkey calls w <= 1.
Proof.
  intros [Hinfo Hdownload].
  assert (forall c w0,
            usesNetwork env c w0 = true -> downloadsArchive env c w0 = true)
    as Himpl.
  { intros [k accept] w0. unfold usesNetwork, downloadsArchive. simpl.
    destruct (cacheGet (archiveKey k) w0) as [b|] eqn:Hcache.
    - rewrite getArchiveInfo_hit_requests by eauto. by rewrite Nat.eqb_refl.
    - intros _. unfold fetchArchiveBuffer, fetchInfo, bind, request. simpl.
      destruct (Hinfo (requests w0)
                  (Js.toString (registryUrl env) +:+ "/package/" +:+ k))
        as [pkg ->]. simpl.
      by destruct (Hdownload
                  (GetUrl (Js.toString (registryUrl env) +:+ "/package/" +:+ k)
                   :: requests w0)
                  (Js.toString (registryUrl env)
                   +:+ Js.toString (RegistryPackage.download pkg)))
        as [b ->]. }
  apply Nat.le_trans with (countCalls downloadsArchive env pkgkey calls w);
    [|apply countCalls_downloads_once].
  clear -Himpl. revert w. induction calls as [|c calls IH]; intros w; [done|].
  simpl. specialize (IH (getArchiveInfo env c.1 c.2 w).2).
  destruct (String.eqb c.1 pkgkey); simpl; [|lia].
  destruct (usesNetwork env c w) eqn:Huses; [|lia].
  rewrite (Himpl c w Huses). lia.
Qed.

(** X13. Once a call has obtained the archive of a pkgkey without
    slashes, the archive itself can be read with [getAsset] under
    [<pkgkey>.tar.gz]: no member of the archive is cached under that
    key. *)
Theorem getAsset_returns_archive (pkgkey : string)
    (accept : ArchiveEntry.t -> bool) (w w1 : World) (archive : Buffer) :
  Js.count "/" pkgkey = 0 ->
  getOrFetchArchiveBuffer env pkgkey w = (inr archive, w1) ->
  let w2 := (getArchiveInfo env pkgkey accept w).2 in
  getAsset (archiveKey pkgkey) w2 = (inr archive, w2).
Proof.
  intros Hslash Hget w2. subst w2.
  destruct (tarEntries env archive) as [entries failure] eqn:Hwalk.
  rewrite (getArchiveInfo_extracted env pkgkey accept w archive w1 entries
             failure) by done.
  simpl. unfold getAsset, bind, gets.
  rewrite cacheEntries_other by (by apply archiveKey_not_reported).
  by rewrite (getOrFetchArchiveBuffer_caches pkgkey w archive w1).
Qed.

(** X14. Repeating a call changes nothing: after a call for a pkgkey
    without slashes has obtained the archive, the same call made again
    gives the same outcome, issues no request and leaves the world as the
    first call left it. *)
Theorem getArchiveInfo_repeat (pkgkey : string)
    (accept : ArchiveEntry.t -> bool) (w w1 : World) (archive : Buffer) :
  Js.count "/" pkgkey = 0 ->
  getOrFetchArchiveBuffer env pkgkey w = (inr archive, w1) ->
  let first := getArchiveInfo env pkgkey accept w in
  getArchiveInfo env pkgkey accept first.2 = first.
Proof.
  intros Hslash Hget first. subst first.
  destruct (tarEntries env archive) as [entries failure] eqn:Hwalk.
  rewrite (getArchiveInfo_extracted env pkgkey accept w archive w1 entries
             failure) by done.
  simpl. rewrite getArchiveInfo_cases.
  rewrite cacheEntries_other by (by apply archiveKey_not_reported).
  rewrite (getOrFetchArchiveBuffer_caches pkgkey w archive w1) by done.
  rewrite extractFrom_walk, Hwalk. simpl. by rewrite cacheEntries_twice.
Qed.

(** X15. A filter only narrows the result: the paths a call returns with
    a filter form a sublist, in the same order, of the paths the same call
    returns with the default filter. *)
Theorem getArchiveInfo_filter_narrows (pkgkey : string)
    (accept : ArchiveEntry.t -> bool) (w : World) (paths : list string) :
  (getArchiveInfo env pkgkey accept w).1 = inr paths ->
  exists all,
    (getArchiveInfo env pkgkey acceptAll w).1 = inr all
    /\ paths `sublist_of` all.
Proof.
  intros (archive & w1 & entries & Hget & Hwalk & ->)%getArchiveInfo_result.
  rewrite (getArchiveInfo_extracted env pkgkey acceptAll w archive w1 entries
             None) by done.
  eexists. split; [done|]. apply fmap_sublist.
  rewrite <- (list_filter_filter_l
                (fun e => reportedBySpec accept e)
                (fun e => reportedBySpec acceptAll e)).
  - apply sublist_filter.
  - intros e Hrep.
    apply Is_true_true, reportedBySpec_spec in Hrep as (_ & Ht & b & Hb).
    apply Is_true_true, reportedBySpec_spec. eauto.
Qed.

(** X16. Every path a call returns has a non-empty parsed file and at
    least three segments: a member at the top of the package, such as
    [<pkgkey>/manifest.yml], is never returned. *)
Theorem getArchiveInfo_paths_have_file (pkgkey : string)
    (accept : ArchiveEntry.t -> bool) (w : World) (paths : list string)
    (p : string) :
  (getArchiveInfo env pkgkey accept w).1 = inr paths ->
  p ∈ paths ->
  Js.truthy (AssetParts.file (pathParts p)) = true
  /\ 2 <= Js.count "/" p.
Proof.
  intros (archive & w1 & entries & _ & _ & ->)%getArchiveInfo_result Hin.
  apply reported_paths_have_file in Hin. split; [done|].
  destruct (decide (Js.count "/" p < 2)) as [Hshort|]; [|lia].
  by rewrite (pathParts_short_file p Hshort) in Hin.
Qed.

End ArchiveRepeat.

Lemma reliable_registry_asked_once_witness :
  let call : Call := ("system-1.2.0", acceptAll) in
  countCalls usesNetwork steadyEnv "system-1.2.0" [call; call; call] emptyWorld
  <= 1.
Proof.
  intros call. apply reliable_registry_asked_once.
  split; intros earlier url; eexists; reflexivity.
Defined.

Lemma getAsset_returns_archive_witness :
  let w2 := (getArchiveInfo scenarioEnv "system-1.2.0" acceptAll emptyWorld).2 in
  getAsset "system-1.2.0.tar.gz" w2 = (inr systemArchive, w2).
Proof.
  apply (getAsset_returns_archive scenarioEnv "system-1.2.0" acceptAll
           emptyWorld
           (getOrFetchArchiveBuffer scenarioEnv "system-1.2.0" emptyWorld).2
           systemArchive); reflexivity.
Defined.

Lemma getArchiveInfo_repeat_witness :
  let first := getArchiveInfo scenarioEnv "system-1.2.0" acceptAll emptyWorld in
  getArchiveInfo scenarioEnv "system-1.2.0" acceptAll first.2 = first.
Proof.
  apply (getArchiveInfo_repeat scenarioEnv "system-1.2.0" acceptAll emptyWorld
           (getOrFetchArchiveBuffer scenarioEnv "system-1.2.0" emptyWorld).2
           systemArchive); reflexivity.
Defined.

Lemma getArchiveInfo_filter_narrows_witness :
  exists all,
    (getArchiveInfo scenarioEnv "system-1.2.0" acceptAll emptyWorld).1 = inr all
    /\ [] `sublist_of` all.
Proof.
  apply (getArchiveInfo_filter_narrows scenarioEnv "system-1.2.0"
           (fun _ => false) emptyWorld []).
  reflexivity.
Defined.

Lemma getArchiveInfo_paths_have_file_witness :
  Js.truthy (AssetParts.file
               (pathParts "system-1.2.0/kibana/dashboard/sample.json")) = true
  /\ 2 <= Js.count "/" "system-1.2.0/kibana/dashboard/sample.json".
Proof.
  apply (getArchiveInfo_paths_have_file scenarioEnv "system-1.2.0" acceptAll
           emptyWorld ["system-1.2.0/kibana/dashboard/sample.json"]).
  - reflexivity.
  - apply elem_of_cons. by left.
Defined.

Section ArchiveFinal.
Variable env : Env.

Lemma getArchiveInfo_keeps_archive pkgkey archive k
    (accept : ArchiveEntry.t -> bool) w :
  Js.count "/" pkgkey = 0 ->
  cacheGet (archiveKey pkgkey) w = Some archive ->
  cacheGet (archiveKey pkgkey) (getArchiveInfo env k accept w).2 = Some archive.
Proof.
  intros Hslash Hcached.
  assert (forall b w1,
            cacheGet (archiveKey pkgkey) (extractFrom env accept b w1).2
            = cacheGet (archiveKey pkgkey) w1) as Hwalk.
  { intros b w1. rewrite extractFrom_walk. simpl.
    by apply cacheEntries_other, archiveKey_not_reported. }
  rewrite getArchiveInfo_cases.
  destruct (cacheGet (archiveKey k) w) as [b|] eqn:Hk; [by rewrite Hwalk|].
  assert (archiveKey k <> archiveKey pkgkey) as Hne by congruence.
  pose proof (fetchArchiveBuffer_cacheGet env k (archiveKey pkgkey) w) as Hsame.
  destruct (fetchArchiveBuffer env k w) as [[e|[b|]] w']; simpl in *.
  - by rewrite Hsame.
  - rewrite Hwalk, cacheGet_cacheSet, decide_False by done. by rewrite Hsame.
  - rewrite cacheGet_cacheSet, decide_False by done. by rewrite Hsame.
Qed.

Lemma run_keeps_archive pkgkey archive calls : forall w,
  Js.count "/" pkgkey = 0 ->
  cacheGet (archiveKey pkgkey) w = Some archive ->
  cacheGet (archiveKey pkgkey) (run env calls w) = Some archive.
Proof.
  induction calls as [|c calls IH]; intros w Hslash Hcached; [done|].
  apply IH; [done|]. by apply getArchiveInfo_keeps_archive.
Qed.

(** X17. A cached archive is final. For a pkgkey without slashes, once
    an archive is cached under [<pkgkey>.tar.gz] no later call replaces
    it, and every later call for that pkgkey, whatever calls come in
    between, has the outcome the walk of that archive gives: the reported
    paths, or the failure of the walk again and again, since a damaged
    archive is never downloaded anew. *)
Theorem cached_archive_is_final (pkgkey : string) (archive : Buffer)
    (w : World) (between : list Call) (accept : ArchiveEntry.t -> bool) :
  Js.count "/" pkgkey = 0 ->
  cacheGet (archiveKey pkgkey) w = Some archive ->
  let w' := run env between w in
  cacheGet (archiveKey pkgkey) w' = Some archive
  /\ (getArchiveInfo env pkgkey accept w').1
     = match (tarEntries env archive).2 with
       | Some e => inl e
       | None =>
           inr (ArchiveEntry.path
                <$> filter (fun e => reportedBySpec accept e)
                           (tarEntries env archive).1)
       end
  /\ requests (getArchiveInfo env pkgkey accept w').2 = requests w'.
Proof.
  intros Hslash Hcached w'.
  assert (cacheGet (archiveKey pkgkey) w' = Some archive) as Hstill
    by (by apply run_keeps_archive).
  split; [done|]. split.
  - by rewrite getArchiveInfo_cases, Hstill, extractFrom_walk.
  - apply getArchiveInfo_hit_requests. eauto.
Qed.

End ArchiveFinal.

Lemma cached_archive_is_final_witness :
  let call : Call := ("system-1.2.0", acceptAll) in
  let w := run corruptEnv [call] emptyWorld in
  (getArchiveInfo corruptEnv "system-1.2.0" acceptAll w).1
  = inl (Rejected "invalid tar file")
  /\ requests (getArchiveInfo corruptEnv "system-1.2.0" acceptAll w).2
     = requests w.
Proof.
  intros call w.
  destruct (cached_archive_is_final corruptEnv "system-1.2.0" [x00] w []
              acceptAll eq_refl eq_refl) as (_ & Hout & Hreq).
  split; [exact Hout|exact Hreq].
Defined.

(** * The dataset marker *)

(** C7. When the second segment of a path is the marker [dataset], the
    third segment is taken as the dataset name, the [dataset/<name>/]
    portion is removed, and what remains is split again into pkgkey,
    service, type and file: for all segments without slashes, the path
    [pkg/dataset/name/service/type/file] parses to these four with
    dataset [name] and the whole input as path. The input of the
    specification, [pkg-1.0/dataset/ds1/logs/log/file.yml], is one such
    path. *)
Theorem pathParts_dataset_marker (pkg name svc ty f : string) :
  Js.count "/" pkg = 0 -> Js.count "/" name = 0 -> Js.count "/" svc = 0 ->
  Js.count "/" ty = 0 -> Js.count "/" f = 0 ->
  let path :=
    pkg +:+ "/dataset/" +:+ name +:+ "/" +:+ svc +:+ "/" +:+ ty +:+ "/" +:+ f in
  Js.split "/" path !! 1 = Some "dataset"
  /\ Js.split "/" path !! 2 = Some name
  /\ Js.replace ("dataset/" +:+ name +:+ "/") "" path
     = pkg +:+ "/" +:+ svc +:+ "/" +:+ ty +:+ "/" +:+ f
  /\ pathParts path
     = AssetParts.mk (Some pkg) (Some svc) (Some ty) (Some f) (Some name) path.
Proof.
  intros Hpkg Hname Hsvc Hty Hf path.
  assert (Js.split "/" path = [pkg; "dataset"; name; svc; ty; f]) as Hsplit.
  { unfold path.
    change (pkg +:+ "/dataset/" +:+ name +:+ "/" +:+ svc +:+ "/" +:+ ty
            +:+ "/" +:+ f)
      with (pkg +:+ "/" +:+ "dataset" +:+ "/" +:+ name +:+ "/" +:+ svc
            +:+ "/" +:+ ty +:+ "/" +:+ f).
    by rewrite !(split_segment_sep "/"), split_segment_last by done. }
  assert (Js.replace ("dataset/" +:+ name +:+ "/") "" path
          = pkg +:+ "/" +:+ svc +:+ "/" +:+ ty +:+ "/" +:+ f) as Hreplace.
  { rewrite <- (replace_dataset_portion pkg name
                  (svc +:+ "/" +:+ ty +:+ "/" +:+ f)) by done.
    f_equal. unfold path.
    change (pkg +:+ "/" +:+ ("dataset/" +:+ name +:+ "/")
            +:+ svc +:+ "/" +:+ ty +:+ "/" +:+ f)
      with (pkg +:+ "/" +:+ "dataset/"
            +:+ ((name +:+ "/") +:+ svc +:+ "/" +:+ ty +:+ "/" +:+ f)).
    by rewrite append_assoc. }
  rewrite Hsplit. split; [done|]. split; [done|]. split; [exact Hreplace|].
  unfold pathParts, destructure4. rewrite Hsplit.
  change ([pkg; "dataset"; name; svc; ty; f] !! 1) with (Some "dataset").
  change ([pkg; "dataset"; name; svc; ty; f] !! 2) with (Some name).
  change (Js.strictEq (Some "dataset") "dataset") with true. cbv iota.
  change (Js.toString (Some name)) with name. rewrite Hreplace.
  by rewrite !(split_segment_sep "/"), split_segment_last by done.
Qed.

Lemma pathParts_dataset_marker_witness :
  Js.split "/" "pkg-1.0/dataset/ds1/logs/log/file.yml" !! 1 = Some "dataset"
  /\ Js.split "/" "pkg-1.0/dataset/ds1/logs/log/file.yml" !! 2 = Some "ds1"
  /\ Js.replace "dataset/ds1/" "" "pkg-1.0/dataset/ds1/logs/log/file.yml"
     = "pkg-1.0/logs/log/file.yml"
  /\ pathParts "pkg-1.0/dataset/ds1/logs/log/file.yml"
     = AssetParts.mk (Some "pkg-1.0") (Some "logs") (Some "log")
         (Some "file.yml") (Some "ds1") "pkg-1.0/dataset/ds1/logs/log/file.yml".
Proof.
  apply (pathParts_dataset_marker "pkg-1.0" "ds1" "logs" "log" "file.yml");
    reflexivity.
Defined.
